(** * ha_cluster_exporter: the Pacemaker and DRBD collectors

    A shallow embedding of [collector/pacemaker/pacemaker.go] and of the DRBD
    collector (package [drbd]), and the properties of their projection from
    status snapshots to metric samples.

    Conventions of the embedding:
    - Go strings are byte strings ([string] of [ascii]); Go [int] is the
      64-bit signed integer of the supported architectures, carried in [Z];
    - [float64] values are IEEE 754 binary64 numbers ([spec_float] with
      precision 53 and maximal exponent 1024);
    - a send on the metric channel appends a sample to the list of emitted
      samples, in program order;
    - a [range] over a Go map visits each entry once in an unspecified order:
      the loops over the status maps are relations, one run per order. *)

From Stdlib Require Import ZArith Ascii String List Lia SpecFloat DecimalString.
From Stdlib Require DecimalPos.
From stdpp Require Import base option list strings gmap.

Local Open Scope Z_scope.

(** ** Package [strings] of the Go library *)
Module Strings.

(** One byte of [strings.ToLower] on its ASCII path:
    [if 'A' <= c && c <= 'Z' { c += 'a' - 'A' }]. *)
Definition lowerByte (c : ascii) : ascii :=
  let n := N_of_ascii c in
  if ((65 <=? n) && (n <=? 90))%N then ascii_of_N (n + 32) else c.

(** [strings.ToLower] on byte strings. Bytes outside 'A'..'Z' are kept: this
    is Go's result on every ASCII string (for text with multi-byte runes Go
    goes through the Unicode tables, which are not part of this model). *)
Fixpoint ToLower (s : string) : string :=
  match s with
  | EmptyString => EmptyString
  | String c s' => String (lowerByte c) (ToLower s')
  end.



(** [strings.HasPrefix(s, prefix)]. *)
Definition HasPrefix (s pre : string) : bool := String.prefix pre s.

(** The scan behind [strings.Split] for a non-empty separator: the pieces
    between the leftmost non-overlapping occurrences of [sep]. [skip] counts
    the bytes of a matched separator still to be passed over and [cur] is the
    piece read so far. *)
Fixpoint splitScan (sep : string) (skip : nat) (cur : string) (s : string)
  : list string :=
  match s with
  | EmptyString => [cur]
  | String c s' =>
      match skip with
      | S k => splitScan sep k cur s'
      | O =>
          if String.prefix sep s
          then cur :: splitScan sep (Nat.pred (String.length sep)) EmptyString s'
          else splitScan sep O (cur +:+ String c EmptyString) s'
      end
  end.

Fixpoint explode (s : string) : list string :=
  match s with
  | EmptyString => []
  | String c s' => String c EmptyString :: explode s'
  end.

(** [strings.Split(s, sep)]: always at least one piece when [sep] is not
    empty; with an empty separator the string is cut after each character
    (each byte, here). *)
Definition Split (s sep : string) : list string :=
  match sep with
  | EmptyString => explode s
  | String _ _ => splitScan sep O EmptyString s
  end.

End Strings.

(** ** Package [strconv] of the Go library *)
Module Strconv.

Inductive NumError := ErrSyntax | ErrRange.

Definition byteVal (c : ascii) : Z := Z.of_N (N_of_ascii c).

(** [strconv.FormatBool]. *)
Definition FormatBool (b : bool) : string := if b then "true" else "false".

(** [strconv.Itoa]: the decimal rendering of an [int]. *)
Definition Itoa (i : Z) : string := NilZero.string_of_int (Z.to_int i).

Definition maxUint64 : Z := 2 ^ 64 - 1.

(** The digit loop of [strconv.ParseUint(s, 10, 64)]: a byte that is not a
    decimal digit is a syntax error with value 0; an overflow of the 64-bit
    accumulator is a range error with the largest value, reported as soon as
    it happens. *)
Fixpoint parseUintLoop (n : Z) (s : string) : Z * option NumError :=
  match s with
  | EmptyString => (n, None)
  | String c s' =>
      let d := byteVal c - 48 in
      if negb ((0 <=? d) && (d <=? 9)) then (0, Some ErrSyntax)
      else if maxUint64 / 10 + 1 <=? n then (maxUint64, Some ErrRange)
      else
        let n10 := n * 10 in
        let n1 := (n10 + d) mod 2 ^ 64 in
        if (n1 <? n10) || (maxUint64 <? n1) then (maxUint64, Some ErrRange)
        else parseUintLoop n1 s'
  end.

Definition ParseUint (s : string) : Z * option NumError :=
  match s with
  | EmptyString => (0, Some ErrSyntax)
  | _ => parseUintLoop 0 s
  end.

(** [strconv.ParseInt(s, 10, 0)] with 64-bit [int]. *)
Definition ParseInt (s : string) : Z * option NumError :=
  match s with
  | EmptyString => (0, Some ErrSyntax)
  | String c s' =>
      let neg := Ascii.eqb c "-" in
      let body := if Ascii.eqb c "+" || neg then s' else s in
      let '(un, err) := ParseUint body in
      match err with
      | Some ErrSyntax => (0, Some ErrSyntax)
      | _ =>
          let cutoff := 2 ^ 63 in
          if negb neg && (cutoff <=? un) then (cutoff - 1, Some ErrRange)
          else if neg && (cutoff <? un) then (- cutoff, Some ErrRange)
          else (if neg then - un else un, None)
      end
  end.

(** The fast path of [strconv.Atoi]: digits accumulated without overflow
    checks, for inputs too short to overflow. *)
Fixpoint atoiFast (n : Z) (s : string) : option Z :=
  match s with
  | EmptyString => Some n
  | String c s' =>
      let ch := (byteVal c - 48) mod 256 in
      if 9 <? ch then None else atoiFast (n * 10 + ch) s'
  end.

(** [strconv.Atoi]: the value and the error, as Go returns both. *)
Definition Atoi (s : string) : Z * option NumError :=
  let sLen := String.length s in
  if (0 <? sLen)%nat && (sLen <? 19)%nat then
    match s with
    | EmptyString => (0, Some ErrSyntax)
    | String c s' =>
        let signed := Ascii.eqb c "-" || Ascii.eqb c "+" in
        let body := if signed then s' else s in
        if signed && (String.length body <? 1)%nat then (0, Some ErrSyntax)
        else
          match atoiFast 0 body with
          | None => (0, Some ErrSyntax)
          | Some n => (if Ascii.eqb c "-" then - n else n, None)
          end
    end
  else ParseInt s.

End Strconv.

(** ** [float64] *)
Module Float64.

Definition float64 := spec_float.

(** The conversion [float64(i)] of an integer: rounding to nearest, ties to
    even. *)
Definition ofInt (i : Z) : float64 := binary_normalize 53 1024 i 0 false.

(** [math.Inf(sign)]: positive infinity when [sign >= 0], negative
    infinity otherwise. *)
Definition Inf (sign : Z) : float64 := S754_infinity (sign <? 0).

(** The float denotes the integer [z] exactly. *)
Definition denotes (f : float64) (z : Z) : Prop :=
  match f with
  | S754_zero _ => z = 0
  | S754_finite s m e =>
      (if s then Z.neg m else Z.pos m) * 2 ^ Z.max e 0 = z * 2 ^ Z.max (- e) 0
  | _ => False
  end.

End Float64.

(** ** Package [collector]: descriptors and samples *)
Module Collector.

Record Desc := mkDesc { help : string; labelNames : list string }.

(** Modelled from the spec: the embedded [collector.DefaultCollector]
    (package [collector] is not part of the sources), as the subsystem name
    and the table of registered descriptors, built once at start-up. *)
Record DefaultCollector := mkCollector {
  subsystem : string;
  descriptors : gmap string Desc
}.

Definition NewDefaultCollector (sub : string) : DefaultCollector :=
  mkCollector sub ∅.

(** Modelled from the spec: [SetDescriptor] of package [collector], whose
    source is not part of the sources at hand; it registers the
    (name, help text, ordered label names) triple of one metric. *)
Definition SetDescriptor (name helpText : string) (labels : list string)
    (c : DefaultCollector) : DefaultCollector :=
  mkCollector (subsystem c) (<[name := mkDesc helpText labels]> (descriptors c)).

Inductive ValueType := GaugeValue | CounterValue.

(** Modelled from the spec: a metric sample is the descriptor it refers to
    (here by its registered name), its value and its ordered label values;
    [prometheus.Metric] itself belongs to the metrics library. *)
Record Metric := mkMetric {
  metricName : string;
  metricType : ValueType;
  metricValue : Float64.float64;
  labelValues : list string
}.

(** Modelled from the spec: [MakeGaugeMetric] and [MakeCounterMetric] of
    package [collector] (absent from the sources) build the sample
    (descriptor reference, numeric value, ordered label values). *)
Definition MakeGaugeMetric (name : string) (value : Float64.float64)
    (labels : list string) : Metric :=
  mkMetric name GaugeValue value labels.

Definition MakeCounterMetric (name : string) (value : Float64.float64)
    (labels : list string) : Metric :=
  mkMetric name CounterValue value labels.

(** The sample refers to a registered descriptor and supplies as many label
    values as the descriptor has label names. *)
Definition arityOk (c : DefaultCollector) (m : Metric) : Prop :=
  ∃ d, descriptors c !! metricName m = Some d ∧
       length (labelValues m) = length (labelNames d).

Fixpoint position (x : string) (l : list string) : option nat :=
  match l with
  | [] => None
  | y :: l' => if String.eqb x y then Some O else S <$> position x l'
  end.

(** The value a sample gives to the label called [label] in its descriptor. *)
Definition labelValue (c : DefaultCollector) (m : Metric) (label : string)
  : option string :=
  d ← descriptors c !! metricName m;
  i ← position label (labelNames d);
  labelValues m !! i.

(** A loop over a slice whose body may run in several ways: the emissions of
    the iterations, in order. *)
Inductive forEach {A : Type} (body : A → list Metric → Prop)
  : list A → list Metric → Prop :=
| forEach_nil : forEach body [] []
| forEach_cons x xs out outs :
    body x out → forEach body xs outs → forEach body (x :: xs) (out ++ outs).

(** [for key, flag := range m] over a map of flags: [order] is one order in
    which the loop may visit the entries. *)
Definition rangeOrder (m : gmap string bool) (order : list (string * bool))
  : Prop :=
  order ≡ₚ map_to_list m.

End Collector.

(** ** The snapshot types *)

(** Modelled from the spec: the type declarations of package [crmmon] (not
    part of the sources), with the fields the collector reads. *)
Module Crmmon.

Record Resource := mkResource {
  Id : string;
  Role : string;
  Managed : bool;
  Active : bool;
  Orphaned : bool;
  Blocked : bool;
  Failed : bool;
  FailureIgnored : bool
}.

Record Node := mkNode {
  Name : string;
  Type_ : string;
  Online : bool;
  Standby : bool;
  StandbyOnFail : bool;
  Maintenance : bool;
  Pending : bool;
  Unclean : bool;
  Shutdown : bool;
  ExpectedUp : bool;
  DC : bool;
  NodeResources : list Resource
}.

Record ResourceHistory := mkResourceHistory {
  HistoryName : string;
  FailCount : Z;
  MigrationThreshold : Z
}.

Record HistoryNode := mkHistoryNode {
  HistoryNodeName : string;
  ResourceHistories : list ResourceHistory
}.

Record Root := mkRoot {
  StonithEnabled : bool;          (* Summary.ClusterOptions.StonithEnabled *)
  LastChangeTime : string;        (* Summary.LastChange.Time *)
  Nodes : list Node;
  Resources : list Resource;
  NodeHistory : list HistoryNode  (* NodeHistory.Node *)
}.

End Crmmon.

(** Modelled from the spec: the type declarations of package [cib] (not part
    of the sources), with the fields the collector reads. *)
Module Cib.

Record RscLocation := mkRscLocation {
  Id : string;
  Node : string;
  Resource : string;
  Role : string;
  Score : string
}.

Record Root := mkRoot {
  RscLocations : list RscLocation  (* Configuration.Constraints.RscLocations *)
}.

End Cib.

(** ** What a scrape reads from the outside world *)
Module Sources.

Definition error := string.

(** The outcome of each external read of one scrape: the two parsers of the
    Pacemaker collector, the output of [drbdsetup status --json], and the
    file names [ioutil.ReadDir] lists in the split-brain directory (none
    when the directory cannot be read, its error being dropped). *)
Record Env := mkEnv {
  crmMonParse : error + Crmmon.Root;
  cibParse : error + Cib.Root;
  drbdsetupStatus : error + string;
  splitBrainDir : list string
}.

End Sources.

(** ** The Pacemaker collector: [collector/pacemaker/pacemaker.go] *)
Module Pacemaker.
Import Collector Sources.

Definition collector : DefaultCollector :=
  let c := NewDefaultCollector "pacemaker" in
  let c := SetDescriptor "nodes"
             "The nodes in the cluster; one line per name, per status"
             ["node"; "type"; "status"] c in
  let c := SetDescriptor "resources"
             "The resources in the cluster; one line per id, per status"
             ["node"; "resource"; "role"; "managed"; "status"] c in
  let c := SetDescriptor "stonith_enabled"
             "Whether or not stonith is enabled" [] c in
  let c := SetDescriptor "fail_count"
             "The Fail count number per node and resource id"
             ["node"; "resource"] c in
  let c := SetDescriptor "migration_threshold"
             "The migration_threshold number per node and resource id"
             ["node"; "resource"] c in
  let c := SetDescriptor "config_last_change"
             "The timestamp of the last change of the cluster configuration"
             [] c in
  let c := SetDescriptor "location_constraints"
             "Resource location constraints. The value indicates the score."
             ["constraint"; "node"; "resource"; "role"] c in
  c.

(** [NewCollector]: [checkExecutables] is the outcome of
    [collector.CheckExecutables] on the two tool paths. *)
Definition NewCollector (checkExecutables : option error)
  : error + DefaultCollector :=
  match checkExecutables with
  | Some err => inl ("could not initialize Pacemaker collector: " +:+ err)
  | None => inr collector
  end.

(** The [switch node.Type] of [recordNodes]. *)
Definition nodeType (node : Crmmon.Node) : string :=
  if String.eqb (Crmmon.Type_ node) "member"
     || String.eqb (Crmmon.Type_ node) "ping"
     || String.eqb (Crmmon.Type_ node) "remote"
  then Crmmon.Type_ node
  else "unknown".

(** The entries of the map literal [nodeStatuses]. *)
Definition nodeFlags (node : Crmmon.Node) : list (string * bool) :=
  [ ("online", Crmmon.Online node);
    ("standby", Crmmon.Standby node);
    ("standby_onfail", Crmmon.StandbyOnFail node);
    ("maintenance", Crmmon.Maintenance node);
    ("pending", Crmmon.Pending node);
    ("unclean", Crmmon.Unclean node);
    ("shutdown", Crmmon.Shutdown node);
    ("expected_up", Crmmon.ExpectedUp node);
    ("dc", Crmmon.DC node) ].

Definition nodeStatuses (node : Crmmon.Node) : gmap string bool :=
  list_to_map (nodeFlags node).

(** The loop over [nodeStatuses], for one order of visit. *)
Definition nodeStatusLoop (node : Crmmon.Node) (order : list (string * bool))
  : list Metric :=
  flat_map
    (λ '(nodeStatus, flag),
      if flag : bool
      then [MakeGaugeMetric "nodes" (Float64.ofInt 1)
              [Crmmon.Name node; nodeType node; nodeStatus]]
      else [])
    order.

(** The entries of the map literal [resourceStatuses]. *)
Definition resourceFlags (resource : Crmmon.Resource) : list (string * bool) :=
  [ ("active", Crmmon.Active resource);
    ("orphaned", Crmmon.Orphaned resource);
    ("blocked", Crmmon.Blocked resource);
    ("failed", Crmmon.Failed resource);
    ("failure_ignored", Crmmon.FailureIgnored resource);
    ("", negb (Crmmon.Active resource || Crmmon.Orphaned resource
               || Crmmon.Blocked resource || Crmmon.Failed resource
               || Crmmon.FailureIgnored resource)) ].

Definition resourceStatuses (resource : Crmmon.Resource) : gmap string bool :=
  list_to_map (resourceFlags resource).

(** The loop over [resourceStatuses], for one order of visit. *)
Definition resourceStatusLoop (resource : Crmmon.Resource) (nodeName : string)
    (order : list (string * bool)) : list Metric :=
  flat_map
    (λ '(resourceStatus, flag),
      if negb flag then []
      else [MakeGaugeMetric "resources" (Float64.ofInt 1)
              [nodeName; Crmmon.Id resource;
               Strings.ToLower (Crmmon.Role resource);
               Strconv.FormatBool (Crmmon.Managed resource);
               resourceStatus]])
    order.

Inductive recordResource (resource : Crmmon.Resource) (nodeName : string)
  : list Metric → Prop :=
| recordResource_run order :
    rangeOrder (resourceStatuses resource) order →
    recordResource resource nodeName
      (resourceStatusLoop resource nodeName order).

Definition recordNodeResources (node : Crmmon.Node) : list Metric → Prop :=
  forEach (λ resource, recordResource resource (Crmmon.Name node))
    (Crmmon.NodeResources node).

(** One iteration of the loop over the nodes in [recordNodes]. *)
Inductive recordNode (node : Crmmon.Node) : list Metric → Prop :=
| recordNode_run order out :
    rangeOrder (nodeStatuses node) order →
    recordNodeResources node out →
    recordNode node (nodeStatusLoop node order ++ out).

Definition recordNodes (crmMon : Crmmon.Root) : list Metric → Prop :=
  forEach recordNode (Crmmon.Nodes crmMon).

Definition recordUngroupedResources (crmMon : Crmmon.Root)
  : list Metric → Prop :=
  forEach (λ resource, recordResource resource "") (Crmmon.Resources crmMon).

(** The value of one [fail_count] sample. *)
Definition failCountValue (resHistory : Crmmon.ResourceHistory)
  : Float64.float64 :=
  let failCount := Float64.ofInt (Crmmon.FailCount resHistory) in
  if 1000000 <=? Crmmon.FailCount resHistory then Float64.Inf 1 else failCount.

Definition recordFailCounts (crmMon : Crmmon.Root) : list Metric :=
  flat_map
    (λ node,
      flat_map
        (λ resHistory,
          [MakeGaugeMetric "fail_count" (failCountValue resHistory)
             [Crmmon.HistoryNodeName node; Crmmon.HistoryName resHistory]])
        (Crmmon.ResourceHistories node))
    (Crmmon.NodeHistory crmMon).

Definition recordMigrationThresholds (crmMon : Crmmon.Root) : list Metric :=
  flat_map
    (λ node,
      flat_map
        (λ resHistory,
          [MakeGaugeMetric "migration_threshold"
             (Float64.ofInt (Crmmon.MigrationThreshold resHistory))
             [Crmmon.HistoryNodeName node; Crmmon.HistoryName resHistory]])
        (Crmmon.ResourceHistories node))
    (Crmmon.NodeHistory crmMon).

(** The [switch constraint.Score] of [recordConstraints]. *)
Definition constraintScore (score : string) : Float64.float64 :=
  if String.eqb score "INFINITY" then Float64.Inf 1
  else if String.eqb score "-INFINITY" then Float64.Inf (-1)
  else let '(s, _) := Strconv.Atoi score in Float64.ofInt s.

Definition recordConstraints (CIB : Cib.Root) : list Metric :=
  flat_map
    (λ constraint,
      [MakeGaugeMetric "location_constraints"
         (constraintScore (Cib.Score constraint))
         [Cib.Id constraint; Cib.Node constraint; Cib.Resource constraint;
          Strings.ToLower (Cib.Role constraint)]])
    (Cib.RscLocations CIB).

(** The value of [stonithEnabled]: the zero value of [float64], or 1. *)
Definition stonithEnabled (crmMon : Crmmon.Root) : Float64.float64 :=
  if Crmmon.StonithEnabled crmMon then Float64.ofInt 1 else S754_zero false.

Section WithTime.

(** [time.Parse(time.ANSIC, s)] followed by [Unix()]: the seconds since the
    epoch, or the parse error. The layout parser of package [time] is kept
    abstract. *)
Variable parseANSIC : string → error + Z.

Definition recordResourceAgentsChanges (crmMon : Crmmon.Root) : list Metric :=
  match parseANSIC (Crmmon.LastChangeTime crmMon) with
  | inl err => []
  | inr unix => [MakeCounterMetric "config_last_change" (Float64.ofInt unix) []]
  end.

(** [pacemakerCollector.Collect]: the samples of one pass. *)
Inductive Collect (env : Env) : list Metric → Prop :=
| Collect_crmMon_failed err :
    crmMonParse env = inl err →
    Collect env []
| Collect_cib_failed crmMon err :
    crmMonParse env = inr crmMon →
    cibParse env = inl err →
    Collect env []
| Collect_done crmMon CIB nodes ungrouped :
    crmMonParse env = inr crmMon →
    cibParse env = inr CIB →
    recordNodes crmMon nodes →
    recordUngroupedResources crmMon ungrouped →
    Collect env
      (MakeGaugeMetric "stonith_enabled" (stonithEnabled crmMon) []
       :: nodes ++ ungrouped
       ++ recordFailCounts crmMon
       ++ recordMigrationThresholds crmMon
       ++ recordResourceAgentsChanges crmMon
       ++ recordConstraints CIB).

(** One run of the pass, computed: every status map is visited in the
    order of its literal. *)
Definition resourcesInOrder (nodeName : string) (resources : list Crmmon.Resource)
  : list Metric :=
  flat_map
    (λ resource, resourceStatusLoop resource nodeName (resourceFlags resource))
    resources.

Definition nodesInOrder (nodes : list Crmmon.Node) : list Metric :=
  flat_map
    (λ node,
      nodeStatusLoop node (nodeFlags node)
      ++ resourcesInOrder (Crmmon.Name node) (Crmmon.NodeResources node))
    nodes.

Definition collectInOrder (env : Env) : list Metric :=
  match crmMonParse env, cibParse env with
  | inr crmMon, inr CIB =>
      MakeGaugeMetric "stonith_enabled" (stonithEnabled crmMon) []
      :: nodesInOrder (Crmmon.Nodes crmMon)
      ++ resourcesInOrder "" (Crmmon.Resources crmMon)
      ++ recordFailCounts crmMon
      ++ recordMigrationThresholds crmMon
      ++ recordResourceAgentsChanges crmMon
      ++ recordConstraints CIB
  | _, _ => []
  end.

End WithTime.

End Pacemaker.

(** ** The DRBD collector: package [drbd] *)
Module Drbd.
Import Collector Sources.

(** A run of code that sends samples and may panic: the samples sent, then
    the value returned, or [None] when the run ended in a panic. *)
Record Run (A : Type) := mkRun {
  emitted : list Metric;
  returned : option A
}.
Arguments mkRun {A} _ _.
Arguments emitted {A} _.
Arguments returned {A} _.

Definition ret {A : Type} (x : A) : Run A := mkRun [] (Some x).

Definition bind {A B : Type} (r : Run A) (k : A → Run B) : Run B :=
  match returned r with
  | None => mkRun (emitted r) None
  | Some x => mkRun (emitted r ++ emitted (k x)) (returned (k x))
  end.

(** [ch <- m]. *)
Definition emit (m : Metric) : Run unit := mkRun [m] (Some tt).

(** A run-time panic. *)
Definition panic {A : Type} : Run A := mkRun [] None.

#[global] Instance run_ret : MRet Run := @ret.
#[global] Instance run_bind : MBind Run := λ A B k r, bind r k.

(** A [for ... range] loop over a slice. *)
Fixpoint eachOf {A : Type} (l : list A) (body : A → Run unit) : Run unit :=
  match l with
  | [] => ret tt
  | x :: l' => body x ;; eachOf l' body
  end.

(** The index expression [l[i]], which panics out of range. *)
Definition index {A : Type} (l : list A) (i : nat) : Run A :=
  match l !! i with
  | Some x => ret x
  | None => panic
  end.

Record Device := mkDevice {
  Volume : Z;
  Written : Z;
  Read : Z;
  AlWrites : Z;
  BmWrites : Z;
  UpPending : Z;
  LoPending : Z;
  Quorum : bool;
  DiskState : string
}.

Record PeerDevice := mkPeerDevice {
  PeerVolume : Z;
  Received : Z;
  Sent : Z;
  Pending : Z;
  Unacked : Z;
  PeerDiskState : string;
  PercentInSync : Float64.float64
}.

Record Connection := mkConnection {
  PeerNodeID : Z;
  PeerRole : string;
  PeerDevices : list PeerDevice
}.

Record drbdStatus := mkDrbdStatus {
  Name : string;
  Role : string;
  Devices : list Device;
  Connections : list Connection
}.

Definition collector : DefaultCollector :=
  let c := NewDefaultCollector "drbd" in
  let c := SetDescriptor "resources"
             "The DRBD resources; 1 line per name, per volume"
             ["resource"; "role"; "volume"; "disk_state"] c in
  let c := SetDescriptor "written"
             "KiB written to DRBD; 1 line per res, per volume"
             ["resource"; "volume"] c in
  let c := SetDescriptor "read"
             "KiB read from DRBD; 1 line per res, per volume"
             ["resource"; "volume"] c in
  let c := SetDescriptor "al_writes"
             "Writes to activity log; 1 line per res, per volume"
             ["resource"; "volume"] c in
  let c := SetDescriptor "bm_writes"
             "Writes to bitmap; 1 line per res, per volume"
             ["resource"; "volume"] c in
  let c := SetDescriptor "upper_pending"
             "Upper pending; 1 line per res, per volume"
             ["resource"; "volume"] c in
  let c := SetDescriptor "lower_pending"
             "Lower pending; 1 line per res, per volume"
             ["resource"; "volume"] c in
  let c := SetDescriptor "quorum"
             "Quorum status per resource and per volume"
             ["resource"; "volume"] c in
  let c := SetDescriptor "connections"
             "The DRBD resource connections; 1 line per per resource, per peer_node_id"
             ["resource"; "peer_node_id"; "peer_role"; "volume";
              "peer_disk_state"] c in
  let c := SetDescriptor "connections_sync"
             "The in sync percentage value for DRBD resource connections"
             ["resource"; "peer_node_id"; "volume"] c in
  let c := SetDescriptor "connections_received"
             "KiB received per connection"
             ["resource"; "peer_node_id"; "volume"] c in
  let c := SetDescriptor "connections_sent"
             "KiB sent per connection"
             ["resource"; "peer_node_id"; "volume"] c in
  let c := SetDescriptor "connections_pending"
             "Pending value per connection"
             ["resource"; "peer_node_id"; "volume"] c in
  let c := SetDescriptor "connections_unacked"
             "Unacked value per connection"
             ["resource"; "peer_node_id"; "volume"] c in
  let c := SetDescriptor "split_brain"
             "Whether a split brain has been detected; 1 line per resource, per volume."
             ["resource"; "volume"] c in
  c.

Definition NewCollector (checkExecutables : option error)
  : error + DefaultCollector :=
  match checkExecutables with
  | Some err => inl ("could not initialize DRBD collector: " +:+ err)
  | None => inr collector
  end.

Definition splitBrainMarker : string := "drbd-split-brain-detected-".

(** [filepath.Glob(c.drbdSplitBrainPath + "/drbd-split-brain-detected-*")]
    over a directory whose entries are [files]: the entries that begin with
    the marker prefix ([nil] when there are none). The configured path is
    taken to hold no pattern metacharacter of its own. *)
Definition Glob (files : list string) : list string :=
  List.filter (λ name, Strings.HasPrefix name splitBrainMarker) files.

(** The part of an iteration of [recordDrbdSplitBrainMetric] that follows
    the glob check, on the directory entry named [f]. *)
Definition splitBrainSample (f : string) : Run unit :=
  resAndVolume ← index (Strings.Split f splitBrainMarker) 1;
  if negb (length (Strings.Split resAndVolume "-") =? 2)%nat then ret tt
  else
    let resourceAndVolume := Strings.Split resAndVolume "-" in
    resource ← index resourceAndVolume 0;
    volume ← index resourceAndVolume 1;
    emit (MakeGaugeMetric "split_brain" (Float64.ofInt 1) [resource; volume]).

(** One iteration of the loop of [recordDrbdSplitBrainMetric]: nothing is
    done when the glob matches no entry of the directory. *)
Definition splitBrainEntry (files : list string) (f : string) : Run unit :=
  match Glob files with
  | [] => ret tt
  | _ :: _ => splitBrainSample f
  end.

Definition recordDrbdSplitBrainMetric (files : list string) : Run unit :=
  eachOf files (splitBrainEntry files).

(** The samples of one device of a resource. *)
Definition recordDevice (resource : drbdStatus) (device : Device) : Run unit :=
  let name := Name resource in
  let volume := Strconv.Itoa (Volume device) in
  emit (MakeGaugeMetric "resources" (Float64.ofInt 1)
          [name; Role resource; volume; Strings.ToLower (DiskState device)]) ;;
  emit (MakeGaugeMetric "written" (Float64.ofInt (Written device))
          [name; volume]) ;;
  emit (MakeGaugeMetric "read" (Float64.ofInt (Read device))
          [name; volume]) ;;
  emit (MakeGaugeMetric "al_writes" (Float64.ofInt (AlWrites device))
          [name; volume]) ;;
  emit (MakeGaugeMetric "bm_writes" (Float64.ofInt (BmWrites device))
          [name; volume]) ;;
  emit (MakeGaugeMetric "upper_pending" (Float64.ofInt (UpPending device))
          [name; volume]) ;;
  emit (MakeGaugeMetric "lower_pending" (Float64.ofInt (LoPending device))
          [name; volume]) ;;
  if Quorum device
  then emit (MakeGaugeMetric "quorum" (Float64.ofInt 1) [name; volume])
  else emit (MakeGaugeMetric "quorum" (Float64.ofInt 0) [name; volume]).

(** The samples of one peer device of a connection. *)
Definition recordPeerDevice (resource : drbdStatus) (conn : Connection)
    (peerDev : PeerDevice) : Run unit :=
  let name := Name resource in
  let peer := Strconv.Itoa (PeerNodeID conn) in
  let volume := Strconv.Itoa (PeerVolume peerDev) in
  emit (MakeGaugeMetric "connections" (Float64.ofInt 1)
          [name; peer; PeerRole conn; volume;
           Strings.ToLower (PeerDiskState peerDev)]) ;;
  emit (MakeGaugeMetric "connections_sync" (PercentInSync peerDev)
          [name; peer; volume]) ;;
  emit (MakeGaugeMetric "connections_received"
          (Float64.ofInt (Received peerDev)) [name; peer; volume]) ;;
  emit (MakeGaugeMetric "connections_sent"
          (Float64.ofInt (Sent peerDev)) [name; peer; volume]) ;;
  emit (MakeGaugeMetric "connections_pending"
          (Float64.ofInt (Pending peerDev)) [name; peer; volume]) ;;
  emit (MakeGaugeMetric "connections_unacked"
          (Float64.ofInt (Unacked peerDev)) [name; peer; volume]).

(** One iteration of the loop over the resources in [Collect]. *)
Definition recordResource (resource : drbdStatus) : Run unit :=
  eachOf (Devices resource) (recordDevice resource) ;;
  if (length (Connections resource) =? 0)%nat then ret tt
  else
    eachOf (Connections resource)
      (λ conn,
        if (length (PeerDevices conn) =? 0)%nat then ret tt
        else eachOf (PeerDevices conn) (recordPeerDevice resource conn)).

Section WithJSON.

(** [json.Unmarshal(statusRaw, &drbdDevs)]: the decoded resources, or the
    decoding error. The JSON decoder is kept abstract. *)
Variable jsonUnmarshal : string → error + list drbdStatus.

Definition parseDrbdStatus (statusRaw : string) : error + list drbdStatus :=
  match jsonUnmarshal statusRaw with
  | inl err => inl err
  | inr drbdDevs => inr drbdDevs
  end.

(** [drbdCollector.Collect]. *)
Definition Collect (env : Env) : Run unit :=
  recordDrbdSplitBrainMetric (splitBrainDir env) ;;
  match drbdsetupStatus env with
  | inl err => ret tt
  | inr drbdStatusRaw =>
      match parseDrbdStatus drbdStatusRaw with
      | inl err => ret tt
      | inr drbdDev => eachOf drbdDev recordResource
      end
  end.

End WithJSON.

End Drbd.

(** ** Vocabulary of the specification *)
Module Spec.
Import Collector Sources.

(** The samples of a pass that belong to the metric called [name]. *)
Definition named (name : string) (m : Metric) : bool :=
  String.eqb (metricName m) name.

Definition samplesOf (name : string) (out : list Metric) : list Metric :=
  List.filter (named name) out.

(** The names of the status flags that are set. *)
Definition trueFlags (flags : list (string * bool)) : list string :=
  List.map fst (List.filter snd flags).

(** The (node, resource) pairs of the node-history section, in order. *)
Definition historyPairs (crmMon : Crmmon.Root)
  : list (Crmmon.HistoryNode * Crmmon.ResourceHistory) :=
  flat_map (λ node, List.map (pair node) (Crmmon.ResourceHistories node))
    (Crmmon.NodeHistory crmMon).

(** Two environments in which the resource-manager tools answer alike. *)
Definition sameClusterSources (env env' : Env) : Prop :=
  crmMonParse env = crmMonParse env' ∧ cibParse env = cibParse env'.

(** The failure of the block-device source: [drbdsetup] cannot be run, or
    its output does not decode. *)
Definition drbdSourceFails (jsonUnmarshal : string → error + list Drbd.drbdStatus)
    (env : Env) : Prop :=
  (∃ err, drbdsetupStatus env = inl err) ∨
  (∃ raw err, drbdsetupStatus env = inr raw ∧ jsonUnmarshal raw = inl err).


(** The [resources] sample of [resource] under node label [nodeName] for
    one status label. *)
Definition resourceSample (resource : Crmmon.Resource) (nodeName status : string)
  : Metric :=
  MakeGaugeMetric "resources" (Float64.ofInt 1)
    [nodeName; Crmmon.Id resource; Strings.ToLower (Crmmon.Role resource);
     Strconv.FormatBool (Crmmon.Managed resource); status].


(** The [nodes] sample of [node] for one status label. *)
Definition nodeSample (node : Crmmon.Node) (status : string) : Metric :=
  MakeGaugeMetric "nodes" (Float64.ofInt 1)
    [Crmmon.Name node; Pacemaker.nodeType node; status].


(** The shapes of the samples the Pacemaker collector sends. *)
Inductive PacemakerSample : Metric → Prop :=
| sample_stonith_enabled v :
    PacemakerSample (MakeGaugeMetric "stonith_enabled" v [])
| sample_nodes v node type status :
    PacemakerSample (MakeGaugeMetric "nodes" v [node; type; status])
| sample_resources v node resource role managed status :
    PacemakerSample
      (MakeGaugeMetric "resources" v
         [node; resource; Strings.ToLower role; Strconv.FormatBool managed;
          status])
| sample_fail_count v node resource :
    PacemakerSample (MakeGaugeMetric "fail_count" v [node; resource])
| sample_migration_threshold v node resource :
    PacemakerSample (MakeGaugeMetric "migration_threshold" v [node; resource])
| sample_config_last_change v :
    PacemakerSample (MakeCounterMetric "config_last_change" v [])
| sample_location_constraints v constraint node resource role :
    PacemakerSample
      (MakeGaugeMetric "location_constraints" v
         [constraint; node; resource; Strings.ToLower role]).

(** The shapes of the samples the DRBD collector sends. *)
Inductive DrbdSample : Metric → Prop :=
| sample_split_brain v resource volume :
    DrbdSample (MakeGaugeMetric "split_brain" v [resource; volume])
| sample_drbd_resources v resource role volume diskState :
    DrbdSample
      (MakeGaugeMetric "resources" v
         [resource; role; volume; Strings.ToLower diskState])
| sample_device name v resource volume :
    name ∈ ["written"; "read"; "al_writes"; "bm_writes"; "upper_pending";
            "lower_pending"; "quorum"] →
    DrbdSample (MakeGaugeMetric name v [resource; volume])
| sample_connections v resource peer peerRole volume peerDiskState :
    DrbdSample
      (MakeGaugeMetric "connections" v
         [resource; peer; peerRole; volume; Strings.ToLower peerDiskState])
| sample_connection_gauge name v resource peer volume :
    name ∈ ["connections_sync"; "connections_received"; "connections_sent";
            "connections_pending"; "connections_unacked"] →
    DrbdSample (MakeGaugeMetric name v [resource; peer; volume]).

(** The number of label names of the descriptor registered as [name]. *)
Definition arity (c : DefaultCollector) (name : string) : option nat :=
  (λ d, length (labelNames d)) <$> descriptors c !! name.

(** The label counts the specification lists for the Pacemaker metrics. *)
Definition pacemakerArities : list (string * nat) :=
  [ ("nodes", 3%nat); ("resources", 5%nat); ("stonith_enabled", 0%nat);
    ("config_last_change", 0%nat); ("fail_count", 2%nat);
    ("migration_threshold", 2%nat); ("location_constraints", 4%nat) ].

(** The label counts the specification lists for the DRBD metrics. *)
Definition drbdArities : list (string * nat) :=
  [ ("split_brain", 2%nat); ("written", 2%nat); ("read", 2%nat);
    ("al_writes", 2%nat); ("bm_writes", 2%nat); ("upper_pending", 2%nat);
    ("lower_pending", 2%nat); ("quorum", 2%nat); ("resources", 4%nat);
    ("connections", 5%nat); ("connections_sync", 3%nat);
    ("connections_received", 3%nat); ("connections_sent", 3%nat);
    ("connections_pending", 3%nat); ("connections_unacked", 3%nat) ].

(** The descriptors of [c] are those of [table], with its label counts. *)
Definition aritiesAre (c : DefaultCollector) (table : list (string * nat))
  : Prop :=
  Forall (λ entry, arity c entry.1 = Some entry.2) table ∧
  size (descriptors c) = length table.



Definition isDigit (c : ascii) : bool :=
  (48 <=? Strconv.byteVal c) && (Strconv.byteVal c <=? 57).

Fixpoint allDigits (s : string) : bool :=
  match s with
  | EmptyString => true
  | String c s' => isDigit c && allDigits s'
  end.

(** The number written by the decimal digits of [s], continuing from
    [acc]. *)
Fixpoint digitsValue (acc : Z) (s : string) : Z :=
  match s with
  | EmptyString => acc
  | String c s' => digitsValue (acc * 10 + (Strconv.byteVal c - 48)) s'
  end.

(** The longest prefix of [s] made of decimal digits. *)
Fixpoint leadingDigits (s : string) : string :=
  match s with
  | EmptyString => EmptyString
  | String c s' => if isDigit c then String c (leadingDigits s') else EmptyString
  end.

Definition isSign (c : ascii) : bool := Ascii.eqb c "-" || Ascii.eqb c "+".

(** The string without its leading sign, if it has one. *)
Definition unsignedPart (s : string) : string :=
  match s with
  | EmptyString => EmptyString
  | String c s' => if isSign c then s' else s
  end.

Definition negative (s : string) : bool :=
  match s with
  | String c _ => Ascii.eqb c "-"
  | EmptyString => false
  end.

(** A well-formed signed integer string: an optional sign and at least one
    decimal digit, nothing else; and the integer it writes. *)
Definition signedInteger (s : string) : option Z :=
  let body := unsignedPart s in
  match body with
  | EmptyString => None
  | String _ _ =>
      if allDigits body
      then Some (if negative s then - digitsValue 0 body else digitsValue 0 body)
      else None
  end.

(** The decoding of a constraint score in the words of the specification:
    the two tokens, a well-formed signed integer as a float, and 0.0 for
    any other string. *)
Definition decodeScore (score : string) : Float64.float64 :=
  if String.eqb score "INFINITY" then S754_infinity false
  else if String.eqb score "-INFINITY" then S754_infinity true
  else match signedInteger score with
       | Some z => Float64.ofInt z
       | None => S754_zero false
       end.

(** The bound of the 64-bit integers on the side of [s]'s sign. *)
Definition saturated (s : string) : Z :=
  if negative s then - 2 ^ 63 else 2 ^ 63 - 1.

(** What [strconv.Atoi] returns, read off the syntax of its argument: the
    saturated bound with a range error when the leading digits overflow 64
    bits or the integer written does not fit [int]; the integer itself when
    it fits; 0 with a syntax error otherwise. *)
Definition atoiResult (s : string) : Z * option Strconv.NumError :=
  if Strconv.maxUint64 <? digitsValue 0 (leadingDigits (unsignedPart s))
  then (saturated s, Some Strconv.ErrRange)
  else match signedInteger s with
       | Some z =>
           if (z <? - 2 ^ 63) || (2 ^ 63 <=? z)
           then (saturated s, Some Strconv.ErrRange)
           else (z, None)
       | None => (0, Some Strconv.ErrSyntax)
       end.

(** What the specification asks of the [fail_count] sample [m] of one
    (node, resource) pair of the node history: the infinity sentinel, and
    the count itself below it. *)
Definition failCountSampleOk
    (entry : Crmmon.HistoryNode * Crmmon.ResourceHistory) (m : Metric) : Prop :=
  let count := Crmmon.FailCount entry.2 in
  metricName m = "fail_count" ∧
  labelValues m = [Crmmon.HistoryNodeName entry.1; Crmmon.HistoryName entry.2] ∧
  (count = 1000000 → metricValue m = S754_infinity false) ∧
  (count = 999999 →
     metricValue m = Float64.ofInt 999999 ∧
     Float64.denotes (metricValue m) 999999) ∧
  (count < 1000000 → metricValue m = Float64.ofInt count).

(** The value [v] decodes the score string as the collector does: the two
    tokens; a well-formed signed integer that fits 64 bits as itself; one
    that does not fit, and any string whose leading digits overflow 64
    bits, as the bound of the range; every other string as 0.0. *)
Definition scoreDecoded (score : string) (v : Float64.float64) : Prop :=
  (score = "INFINITY" → v = S754_infinity false) ∧
  (score = "-INFINITY" → v = S754_infinity true) ∧
  (∀ z, signedInteger score = Some z → - 2 ^ 63 <= z < 2 ^ 63 →
        v = Float64.ofInt z) ∧
  (∀ z, signedInteger score = Some z → ¬ (- 2 ^ 63 <= z < 2 ^ 63) →
        v = Float64.ofInt (saturated score)) ∧
  (score ≠ "INFINITY" → score ≠ "-INFINITY" → signedInteger score = None →
     if Strconv.maxUint64 <? digitsValue 0 (leadingDigits (unsignedPart score))
     then v = Float64.ofInt (saturated score)
     else v = S754_zero false) ∧
  (score ≠ "INFINITY" → score ≠ "-INFINITY" → signedInteger score = None →
     (String.length score < 19)%nat → v = S754_zero false).

(** What is asked of the [location_constraints] sample [m] of one
    constraint. *)
Definition constraintSampleOk (constraint : Cib.RscLocation) (m : Metric)
  : Prop :=
  metricName m = "location_constraints" ∧
  labelValues m =
    [Cib.Id constraint; Cib.Node constraint; Cib.Resource constraint;
     Strings.ToLower (Cib.Role constraint)] ∧
  scoreDecoded (Cib.Score constraint) (metricValue m).


End Spec.

(** ** Sample snapshots *)
Module Examples.
Import Sources.

Definition ip : Crmmon.Resource :=
  Crmmon.mkResource "rsc_ip" "Started" true true false false true false.

Definition fs : Crmmon.Resource :=
  Crmmon.mkResource "rsc_fs" "Stopped" false false false false false false.

Definition node01 : Crmmon.Node :=
  Crmmon.mkNode "node01" "member"
    true false false false false false false true true [ip].

Definition node02 : Crmmon.Node :=
  Crmmon.mkNode "node02" "bundle"
    false true false false false false false false false [].

Definition crmMon : Crmmon.Root :=
  Crmmon.mkRoot true "Fri Oct 18 11:48:22 2019" [node01; node02] [fs]
    [Crmmon.mkHistoryNode "node01"
       [Crmmon.mkResourceHistory "rsc_ip" 1000000 5000;
        Crmmon.mkResourceHistory "rsc_fs" 999999 3]].

Definition cib : Cib.Root :=
  Cib.mkRoot
    [Cib.mkRscLocation "prefer-node01" "node01" "rsc_ip" "Started" "INFINITY";
     Cib.mkRscLocation "avoid-node02" "node02" "rsc_ip" "Master" "-INFINITY";
     Cib.mkRscLocation "weight" "node01" "rsc_fs" "" "150";
     Cib.mkRscLocation "odd" "node02" "rsc_fs" "" "banana"].

(** A clock that reads every time stamp as the same instant. *)
Definition clock (s : string) : error + Z := inr 1571399302.

(** A decoder that yields one resource with one device and no connection,
    or fails on empty input. *)
Definition decoder (raw : string) : error + list Drbd.drbdStatus :=
  match raw with
  | EmptyString => inl "unexpected end of JSON input"
  | _ =>
      inr [Drbd.mkDrbdStatus "1-single-0" "Primary"
             [Drbd.mkDevice 0 1024 2048 3 4 0 0 true "UpToDate"]
             [Drbd.mkConnection 1 "Secondary"
                [Drbd.mkPeerDevice 0 10 20 0 0 "UpToDate"
                   (Float64.ofInt 100)]]]
  end.

Definition marker : string := "drbd-split-brain-detected-myres-0".

(** Both sources answer. *)
Definition healthy : Env :=
  mkEnv (inr crmMon) (inr cib) (inr "[{}]") [marker].

(** [cibadmin] fails after [crm_mon] has answered. *)
Definition cibDown : Env :=
  mkEnv (inr crmMon) (inl "cibadmin: exit status 1") (inr "[{}]") [marker].

(** [drbdsetup] cannot be run while a split-brain marker is present. *)
Definition drbdDown : Env :=
  mkEnv (inr crmMon) (inr cib) (inl "drbdsetup: exit status 1") [marker].

(** [drbdsetup] answers with text that does not decode. *)
Definition drbdGarbled : Env :=
  mkEnv (inr crmMon) (inr cib) (inr "") [marker].

(** A split-brain directory that also holds a file of another kind. *)
Definition foreign : Env :=
  mkEnv (inr crmMon) (inr cib) (inr "[{}]") ["README"; marker].

End Examples.

(** ** Vocabulary of whole passes *)
Module Passes.
Import Collector Sources.

(** The string holds no hyphen. *)
Fixpoint noHyphen (s : string) : bool :=
  match s with
  | EmptyString => true
  | String c s' => negb (Ascii.eqb c "-") && noHyphen s'
  end.

(** The text [sep] occurs somewhere in [s]. *)
Fixpoint occursIn (sep s : string) : bool :=
  match s with
  | EmptyString => false
  | String _ s' => String.prefix sep s || occursIn sep s'
  end.

(** The number of hyphens of the string. *)
Fixpoint hyphens (s : string) : nat :=
  match s with
  | EmptyString => O
  | String c s' => if Ascii.eqb c "-" then S (hyphens s') else hyphens s'
  end.

(** The name of the marker file of a resource and a volume. *)
Definition markerName (resource volume : string) : string :=
  Drbd.splitBrainMarker +:+ (resource +:+ String "-" volume).

(** A [split_brain] sample whose labels hold no hyphen. *)
Definition plainSplitBrainSample (m : Metric) : Prop :=
  ∃ resource volume,
    m = MakeGaugeMetric "split_brain" (Float64.ofInt 1) [resource; volume] ∧
    noHyphen resource = true ∧ noHyphen volume = true.

(** The [split_brain] sample of a resource and a volume. *)
Definition splitBrainSampleOf (resource volume : string) : Metric :=
  MakeGaugeMetric "split_brain" (Float64.ofInt 1) [resource; volume].

(** The number of devices, and of peer devices, of a DRBD snapshot. *)
Definition totalDevices (drbdDev : list Drbd.drbdStatus) : nat :=
  sum_list_with (λ resource, length (Drbd.Devices resource)) drbdDev.

Definition totalPeerDevices (drbdDev : list Drbd.drbdStatus) : nat :=
  sum_list_with
    (λ resource,
      sum_list_with (λ conn, length (Drbd.PeerDevices conn))
        (Drbd.Connections resource))
    drbdDev.

(** The metrics sent once per device, and once per peer device. *)
Definition deviceMetrics : list string :=
  ["resources"; "written"; "read"; "al_writes"; "bm_writes"; "upper_pending";
   "lower_pending"; "quorum"].

Definition connectionMetrics : list string :=
  ["connections"; "connections_sync"; "connections_received";
   "connections_sent"; "connections_pending"; "connections_unacked"].

(** The devices of a snapshot, each with its resource, and the peer
    devices, each with its resource and connection, in order. *)
Definition allDevices (drbdDev : list Drbd.drbdStatus)
  : list (Drbd.drbdStatus * Drbd.Device) :=
  flat_map (λ resource, List.map (pair resource) (Drbd.Devices resource))
    drbdDev.

Definition allPeerDevices (drbdDev : list Drbd.drbdStatus)
  : list (Drbd.drbdStatus * Drbd.Connection * Drbd.PeerDevice) :=
  flat_map
    (λ resource,
      flat_map
        (λ conn, List.map (pair (resource, conn)) (Drbd.PeerDevices conn))
        (Drbd.Connections resource))
    drbdDev.

(** The gauges of a device, each with the field it reports. *)
Definition deviceGauges : list (string * (Drbd.Device → Float64.float64)) :=
  [ ("written", λ device, Float64.ofInt (Drbd.Written device));
    ("read", λ device, Float64.ofInt (Drbd.Read device));
    ("al_writes", λ device, Float64.ofInt (Drbd.AlWrites device));
    ("bm_writes", λ device, Float64.ofInt (Drbd.BmWrites device));
    ("upper_pending", λ device, Float64.ofInt (Drbd.UpPending device));
    ("lower_pending", λ device, Float64.ofInt (Drbd.LoPending device));
    ("quorum", λ device, Float64.ofInt (if Drbd.Quorum device then 1 else 0)) ].

(** The gauges of a peer device, each with the field it reports. *)
Definition connectionGauges
  : list (string * (Drbd.PeerDevice → Float64.float64)) :=
  [ ("connections_sync", Drbd.PercentInSync);
    ("connections_received", λ peerDev, Float64.ofInt (Drbd.Received peerDev));
    ("connections_sent", λ peerDev, Float64.ofInt (Drbd.Sent peerDev));
    ("connections_pending", λ peerDev, Float64.ofInt (Drbd.Pending peerDev));
    ("connections_unacked", λ peerDev, Float64.ofInt (Drbd.Unacked peerDev)) ].

(** The sample of a device gauge, and of a connection gauge. *)
Definition deviceGauge (name : string) (value : Drbd.Device → Float64.float64)
    (entry : Drbd.drbdStatus * Drbd.Device) : Metric :=
  MakeGaugeMetric name (value entry.2)
    [Drbd.Name entry.1; Strconv.Itoa (Drbd.Volume entry.2)].

Definition connectionGauge (name : string)
    (value : Drbd.PeerDevice → Float64.float64)
    (entry : Drbd.drbdStatus * Drbd.Connection * Drbd.PeerDevice) : Metric :=
  MakeGaugeMetric name (value entry.2)
    [Drbd.Name entry.1.1; Strconv.Itoa (Drbd.PeerNodeID entry.1.2);
     Strconv.Itoa (Drbd.PeerVolume entry.2)].

(** The values the type and status labels of the Pacemaker samples range
    over. *)
Definition nodeTypes : list string := ["member"; "ping"; "remote"; "unknown"].

Definition nodeStatusNames : list string :=
  ["online"; "standby"; "standby_onfail"; "maintenance"; "pending"; "unclean";
   "shutdown"; "expected_up"; "dc"].

Definition resourceStatusNames : list string :=
  ["active"; "orphaned"; "blocked"; "failed"; "failure_ignored"; ""].

(** The labels of a [nodes] or [resources] sample are drawn from the fixed
    vocabularies. *)
Definition vocabularyOk (m : Metric) : Prop :=
  (metricName m = "nodes" →
     ∃ type status,
       labelValue Pacemaker.collector m "type" = Some type ∧
       type ∈ nodeTypes ∧
       labelValue Pacemaker.collector m "status" = Some status ∧
       status ∈ nodeStatusNames) ∧
  (metricName m = "resources" →
     ∃ managed status,
       labelValue Pacemaker.collector m "managed" = Some managed ∧
       managed ∈ ["true"; "false"] ∧
       labelValue Pacemaker.collector m "status" = Some status ∧
       status ∈ resourceStatusNames).

(** The [migration_threshold] sample of one (node, resource) pair of the
    node history carries the threshold as it is. *)
Definition thresholdSampleOk
    (entry : Crmmon.HistoryNode * Crmmon.ResourceHistory) (m : Metric) : Prop :=
  metricName m = "migration_threshold" ∧
  metricType m = GaugeValue ∧
  labelValues m = [Crmmon.HistoryNodeName entry.1; Crmmon.HistoryName entry.2] ∧
  metricValue m = Float64.ofInt (Crmmon.MigrationThreshold entry.2).

(** A source of the Pacemaker pass failed. *)
Definition clusterSourceFails (env : Env) : Prop :=
  (∃ err, crmMonParse env = inl err) ∨ (∃ err, cibParse env = inl err).

End Passes.

(** * Properties *)

(** ** Facts about the library models *)
Module LibraryFacts.
Import Strings Strconv Spec.





Lemma ToLower_length (s : string) :
  String.length (ToLower s) = String.length s.
Proof. induction s as [|c s IH]; simpl; congruence. Qed.

(** The scan of [Split] always yields at least one piece. *)
Lemma splitScan_nonempty (sep : string) (s : string) :
  ∀ skip cur, splitScan sep skip cur s ≠ [].
Proof.
  induction s as [|c s IH]; intros skip cur; cbn [splitScan]; [discriminate|].
  destruct skip; [|apply IH].
  destruct (String.prefix sep (String c s)); [discriminate|apply IH].
Qed.

Lemma byteVal_range (c : ascii) : 0 <= byteVal c < 256.
Proof.
  unfold byteVal. pose proof (N_ascii_bounded c) as H. lia.
Qed.

Lemma isDigit_spec (c : ascii) :
  isDigit c = true ↔ 0 <= byteVal c - 48 <= 9.
Proof. unfold isDigit. rewrite andb_true_iff, !Z.leb_le. lia. Qed.

Lemma isDigit_false (c : ascii) :
  isDigit c = false ↔ ¬ (0 <= byteVal c - 48 <= 9).
Proof.
  unfold isDigit. rewrite andb_false_iff, !Z.leb_gt. lia.
Qed.

Lemma allDigits_leadingDigits (s : string) : allDigits (leadingDigits s) = true.
Proof.
  induction s as [|c s IH]; simpl; [reflexivity|].
  destruct (isDigit c) eqn:Hc; simpl; [now rewrite Hc|reflexivity].
Qed.

Lemma leadingDigits_allDigits (s : string) :
  allDigits s = true → leadingDigits s = s.
Proof.
  induction s as [|c s IH]; simpl; [reflexivity|].
  intros [Hc Hs]%andb_true_iff. rewrite Hc. f_equal. auto.
Qed.

Lemma leadingDigits_length (s : string) :
  (String.length (leadingDigits s) <= String.length s)%nat.
Proof.
  induction s as [|c s IH]; simpl; [lia|].
  destruct (isDigit c); simpl; lia.
Qed.

Lemma digitsValue_lower (s : string) :
  ∀ n, allDigits s = true → 0 <= n → n <= digitsValue n s.
Proof.
  induction s as [|c s IH]; simpl; intros n Hs Hn; [lia|].
  apply andb_true_iff in Hs as [Hc Hs]. apply isDigit_spec in Hc.
  specialize (IH (n * 10 + (byteVal c - 48)) Hs). lia.
Qed.

Lemma digitsValue_upper (s : string) :
  ∀ n, allDigits s = true → 0 <= n →
       digitsValue n s < (n + 1) * 10 ^ Z.of_nat (String.length s).
Proof.
  induction s as [|c s IH]; intros n Hs Hn.
  - simpl. lia.
  - cbn [digitsValue String.length]. simpl in Hs.
    apply andb_true_iff in Hs as [Hc Hs]. apply isDigit_spec in Hc.
    specialize (IH (n * 10 + (byteVal c - 48)) Hs).
    rewrite Nat2Z.inj_succ, Z.pow_succ_r by lia.
    assert (0 < 10 ^ Z.of_nat (String.length s)) by (apply Z.pow_pos_nonneg; lia).
    nia.
Qed.

(** The digit loop of [ParseUint]: a range error as soon as the leading
    digits exceed 64 bits, else the number written, else a syntax error. *)
Lemma parseUintLoop_spec (s : string) :
  ∀ n, 0 <= n <= maxUint64 →
    parseUintLoop n s =
      if maxUint64 <? digitsValue n (leadingDigits s)
      then (maxUint64, Some ErrRange)
      else if allDigits s then (digitsValue n s, None)
           else (0, Some ErrSyntax).
Proof.
  induction s as [|c s IH]; intros n Hn.
  - simpl. destruct (Z.ltb_spec maxUint64 n); [lia|reflexivity].
  - cbn [parseUintLoop leadingDigits allDigits].
    destruct (isDigit c) eqn:Hc.
    + pose proof Hc as Hd. apply isDigit_spec in Hd.
      replace ((0 <=? byteVal c - 48) && (byteVal c - 48 <=? 9)) with true
        by (symmetry; apply andb_true_iff; rewrite !Z.leb_le; lia).
      cbn [negb andb digitsValue].
      pose proof (digitsValue_lower (leadingDigits s)
                    (n * 10 + (byteVal c - 48))
                    (allDigits_leadingDigits s)) as Hlow.
      unfold maxUint64 in *.
      change (2 ^ 64 - 1) with 18446744073709551615 in *.
      change ((18446744073709551615) / 10 + 1) with 1844674407370955162.
      change (2 ^ 64) with 18446744073709551616.
      destruct (Z.leb_spec 1844674407370955162 n) as [Hcut|Hcut].
      * destruct (Z.ltb_spec 18446744073709551615
                    (digitsValue (n * 10 + (byteVal c - 48)) (leadingDigits s)));
          [reflexivity|lia].
      * destruct (Z_le_gt_dec (n * 10 + (byteVal c - 48)) 18446744073709551615)
          as [Hfit|Hover].
        -- rewrite Z.mod_small by lia.
           replace (n * 10 + (byteVal c - 48) <? n * 10) with false
             by (symmetry; apply Z.ltb_ge; lia).
           replace (18446744073709551615 <? n * 10 + (byteVal c - 48)) with false
             by (symmetry; apply Z.ltb_ge; lia).
           cbn [orb]. apply IH. lia.
        -- replace ((n * 10 + (byteVal c - 48)) mod 18446744073709551616)
             with (n * 10 + (byteVal c - 48) - 18446744073709551616)
             by (apply Z.mod_unique with 1; lia).
           replace (n * 10 + (byteVal c - 48) - 18446744073709551616 <? n * 10)
             with true by (symmetry; apply Z.ltb_lt; lia).
           cbn [orb].
           destruct (Z.ltb_spec 18446744073709551615
                    (digitsValue (n * 10 + (byteVal c - 48)) (leadingDigits s)));
             [reflexivity|lia].
    + pose proof Hc as Hd. apply isDigit_false in Hd.
      replace ((0 <=? byteVal c - 48) && (byteVal c - 48 <=? 9)) with false
        by (symmetry; apply andb_false_iff; rewrite !Z.leb_gt; lia).
      cbn [negb andb digitsValue].
      destruct (Z.ltb_spec maxUint64 n); [lia|reflexivity].
Qed.

(** The fast path of [Atoi] accepts exactly the strings of digits. *)
Lemma atoiFast_spec (s : string) :
  ∀ n, atoiFast n s = if allDigits s then Some (digitsValue n s) else None.
Proof.
  induction s as [|c s IH]; intros n; [reflexivity|].
  cbn [atoiFast allDigits digitsValue].
  pose proof (byteVal_range c) as Hb.
  destruct (isDigit c) eqn:Hc.
  - apply isDigit_spec in Hc. rewrite Z.mod_small by lia.
    replace (9 <? byteVal c - 48) with false by (symmetry; apply Z.ltb_ge; lia).
    cbn [andb]. apply IH.
  - apply isDigit_false in Hc. cbn [andb].
    replace (9 <? (byteVal c - 48) mod 256) with true; [reflexivity|].
    symmetry. apply Z.ltb_lt.
    destruct (Z_lt_ge_dec (byteVal c) 48).
    + replace ((byteVal c - 48) mod 256) with (byteVal c - 48 + 256)
        by (apply Z.mod_unique with (-1); lia). lia.
    + rewrite Z.mod_small by lia. lia.
Qed.

Lemma ParseUint_spec (s : string) :
  ParseUint s =
    if maxUint64 <? digitsValue 0 (leadingDigits s)
    then (maxUint64, Some ErrRange)
    else match s with
         | EmptyString => (0, Some ErrSyntax)
         | String _ _ =>
             if allDigits s then (digitsValue 0 s, None) else (0, Some ErrSyntax)
         end.
Proof.
  destruct s as [|c s]; [reflexivity|].
  unfold ParseUint. rewrite parseUintLoop_spec by (unfold maxUint64; lia).
  reflexivity.
Qed.

Lemma digitsValue_nonneg (s : string) :
  allDigits s = true → 0 <= digitsValue 0 s.
Proof. intros Hs. apply (digitsValue_lower s 0 Hs). lia. Qed.

Lemma ParseInt_spec (s : string) : ParseInt s = atoiResult s.
Proof.
  unfold atoiResult, signedInteger, saturated.
  destruct s as [|c s]; [reflexivity|].
  unfold ParseInt. cbn [unsignedPart negative]. unfold isSign.
  rewrite (orb_comm (Ascii.eqb c "+")).
  set (body := if (Ascii.eqb c "-" || Ascii.eqb c "+")%bool then s else String c s).
  rewrite ParseUint_spec.
  destruct (maxUint64 <? digitsValue 0 (leadingDigits body)) eqn:Hover.
  - unfold maxUint64. destruct (Ascii.eqb c "-"); reflexivity.
  - destruct body as [|b body'] eqn:Hbody; [reflexivity|].
    clear Hbody. set (bd := String b body') in *.
    destruct (allDigits bd) eqn:Hall; [|reflexivity].
    rewrite leadingDigits_allDigits in Hover by assumption.
    apply Z.ltb_ge in Hover. unfold maxUint64 in Hover.
    pose proof (digitsValue_nonneg bd Hall) as Hpos.
    destruct (Ascii.eqb c "-"); cbn [negb andb orb].
    + destruct (Z.ltb_spec (2 ^ 63) (digitsValue 0 bd));
        destruct (Z.ltb_spec (- digitsValue 0 bd) (- 2 ^ 63));
        destruct (Z.leb_spec (2 ^ 63) (- digitsValue 0 bd));
        cbn [orb]; try reflexivity; lia.
    + destruct (Z.leb_spec (2 ^ 63) (digitsValue 0 bd));
        destruct (Z.ltb_spec (digitsValue 0 bd) (- 2 ^ 63));
        cbn [orb]; try reflexivity; lia.
Qed.

Lemma short_digits_small (s : string) :
  allDigits s = true → (String.length s < 19)%nat →
  digitsValue 0 s < 10 ^ 18.
Proof.
  intros Hs Hlen. pose proof (digitsValue_upper s 0 Hs ltac:(lia)) as Hup.
  assert (10 ^ Z.of_nat (String.length s) <= 10 ^ 18)
    by (apply Z.pow_le_mono_r; lia).
  lia.
Qed.

(** [strconv.Atoi] returns what [atoiResult] reads off the syntax of its
    argument, on its fast path and on its slow one. *)
Lemma Atoi_spec (s : string) : Atoi s = atoiResult s.
Proof.
  unfold Atoi.
  destruct ((0 <? String.length s)%nat && (String.length s <? 19)%nat) eqn:Hfast;
    [|apply ParseInt_spec].
  apply andb_true_iff in Hfast as [Hpos Hlen].
  apply Nat.ltb_lt in Hpos, Hlen.
  destruct s as [|c s]; [simpl in Hpos; lia|].
  unfold atoiResult, signedInteger, saturated.
  cbn [unsignedPart negative]. unfold isSign.
  set (body := if (Ascii.eqb c "-" || Ascii.eqb c "+")%bool then s else String c s).
  assert (Hbl : (String.length body < 19)%nat).
  { subst body. cbn [String.length] in Hlen.
    destruct (Ascii.eqb c "-" || Ascii.eqb c "+")%bool; cbn [String.length]; lia. }
  assert (Hld : digitsValue 0 (leadingDigits body) < 10 ^ 18).
  { apply short_digits_small; [apply allDigits_leadingDigits|].
    pose proof (leadingDigits_length body). lia. }
  replace (maxUint64 <? digitsValue 0 (leadingDigits body)) with false
    by (symmetry; apply Z.ltb_ge; unfold maxUint64; lia).
  rewrite atoiFast_spec.
  destruct body as [|b body'] eqn:Hbody.
  - destruct (Ascii.eqb c "-" || Ascii.eqb c "+")%bool eqn:Hsign;
      [reflexivity|discriminate].
  - clear Hbody.
    replace (String.length (String b body') <? 1)%nat with false
      by (symmetry; apply Nat.ltb_ge; cbn [String.length]; lia).
    set (bd := String b body') in *.
    rewrite andb_false_r.
    destruct (allDigits bd) eqn:Hall; [|reflexivity].
    pose proof (short_digits_small bd Hall Hbl) as Hsmall.
    pose proof (digitsValue_nonneg bd Hall) as Hnn.
    destruct (Ascii.eqb c "-").
    + destruct (Z.ltb_spec (- digitsValue 0 bd) (- 2 ^ 63));
        destruct (Z.leb_spec (2 ^ 63) (- digitsValue 0 bd));
        cbn [orb]; try reflexivity; lia.
    + destruct (Z.ltb_spec (digitsValue 0 bd) (- 2 ^ 63));
        destruct (Z.leb_spec (2 ^ 63) (digitsValue 0 bd));
        cbn [orb]; try reflexivity; lia.
Qed.

End LibraryFacts.

(** ** Facts about loops and the selection of samples *)
Module LoopFacts.
Import Collector Spec.


Lemma forEach_Forall {A : Type} (body : A → list Metric → Prop)
    (P : Metric → Prop) (l : list A) (out : list Metric) :
  (∀ x o, body x o → Forall P o) → forEach body l out → Forall P out.
Proof.
  intros Hbody. induction 1 as [|x xs o os Hx _ IH]; [constructor|].
  apply Forall_app. split; [by eapply Hbody|exact IH].
Qed.

Lemma forEach_total {A : Type} (body : A → list Metric → Prop) (l : list A) :
  (∀ x, ∃ o, body x o) → ∃ out, forEach body l out.
Proof.
  intros Hbody. induction l as [|x l (outs & IH)].
  - exists []. constructor.
  - destruct (Hbody x) as (o & Ho). exists (o ++ outs)%list. by constructor.
Qed.

Lemma samplesOf_app (name : string) (l k : list Metric) :
  samplesOf name (l ++ k) = samplesOf name l ++ samplesOf name k.
Proof. apply List.filter_app. Qed.

Lemma samplesOf_same (name : string) (l : list Metric) :
  Forall (λ m, metricName m = name) l → samplesOf name l = l.
Proof.
  induction 1 as [|m l Hm _ IH]; [reflexivity|].
  unfold samplesOf in *. cbn [List.filter]. unfold named at 1.
  rewrite Hm, String.eqb_refl. by rewrite IH.
Qed.

Lemma samplesOf_other (name other : string) (l : list Metric) :
  other ≠ name → Forall (λ m, metricName m = other) l → samplesOf name l = [].
Proof.
  intros Hne. induction 1 as [|m l Hm _ IH]; [reflexivity|].
  unfold samplesOf in *. cbn [List.filter]. unfold named at 1.
  rewrite Hm. destruct (String.eqb_spec other name); [done|exact IH].
Qed.

Lemma trueFlags_cons (x : string * bool) (l : list (string * bool)) :
  trueFlags (x :: l) = if x.2 then x.1 :: trueFlags l else trueFlags l.
Proof. unfold trueFlags. cbn [List.filter]. by destruct x.2. Qed.

Lemma trueFlags_perm (l k : list (string * bool)) :
  l ≡ₚ k → trueFlags l ≡ₚ trueFlags k.
Proof.
  induction 1 as [|x l k _ IH|x y l|l k j _ IH1 _ IH2].
  - reflexivity.
  - rewrite !trueFlags_cons. destruct x.2; by rewrite IH.
  - rewrite !trueFlags_cons. destruct x.2, y.2; try reflexivity. apply perm_swap.
  - by rewrite IH1.
Qed.

Lemma trueFlags_keys (l : list (string * bool)) (key : string) :
  key ∈ trueFlags l → key ∈ l.*1.
Proof.
  induction l as [|x l IH]; [done|].
  rewrite trueFlags_cons. cbn [fmap list_fmap].
  destruct x.2; rewrite !elem_of_cons; [intros [->|Hin]|intros Hin]; auto.
Qed.



(** The visiting orders of a map built from a literal with distinct keys
    are rearrangements of the literal's entries. *)
Lemma rangeOrder_literal (entries order : list (string * bool)) :
  NoDup entries.*1 →
  rangeOrder (list_to_map entries) order → order ≡ₚ entries.
Proof.
  unfold rangeOrder. intros Hkeys ->.
  exact (map_to_list_to_map (M:=gmap string) entries Hkeys).
Qed.

(** A map can always be visited in some order. *)
Lemma rangeOrder_exists (m : gmap string bool) : rangeOrder m (map_to_list m).
Proof. unfold rangeOrder. reflexivity. Qed.

End LoopFacts.

(** ** The Pacemaker collector *)
Module PacemakerFacts.
Import Strings Strconv Collector Sources Spec Pacemaker LibraryFacts LoopFacts.

Lemma nodeFlags_keys (node : Crmmon.Node) : NoDup (nodeFlags node).*1.
Proof. cbn. apply (bool_decide_unpack _). by vm_compute. Qed.

Lemma resourceFlags_keys (resource : Crmmon.Resource) :
  NoDup (resourceFlags resource).*1.
Proof. cbn. apply (bool_decide_unpack _). by vm_compute. Qed.

Lemma nodeStatusLoop_map (node : Crmmon.Node) (order : list (string * bool)) :
  nodeStatusLoop node order = List.map (nodeSample node) (trueFlags order).
Proof.
  induction order as [|[status flag] order IH]; [reflexivity|].
  rewrite trueFlags_cons. unfold nodeStatusLoop in *.
  cbn [flat_map]. rewrite IH. by destruct flag.
Qed.

Lemma resourceStatusLoop_map (resource : Crmmon.Resource) (nodeName : string)
    (order : list (string * bool)) :
  resourceStatusLoop resource nodeName order =
    List.map (resourceSample resource nodeName) (trueFlags order).
Proof.
  induction order as [|[status flag] order IH]; [reflexivity|].
  rewrite trueFlags_cons. unfold resourceStatusLoop in *.
  cbn [flat_map]. rewrite IH. by destruct flag.
Qed.

Lemma map_named {A : Type} (name : string) (f : A → Metric) (l : list A) :
  (∀ x, metricName (f x) = name) →
  Forall (λ m, metricName m = name) (List.map f l).
Proof. intros Hf. induction l; constructor; auto. Qed.

Lemma recordResource_named (resource : Crmmon.Resource) (nodeName : string)
    (out : list Metric) :
  recordResource resource nodeName out →
  Forall (λ m, metricName m = "resources") out.
Proof.
  intros [order _]. rewrite resourceStatusLoop_map. by apply map_named.
Qed.


Lemma recordResource_total (resource : Crmmon.Resource) (nodeName : string) :
  ∃ out, recordResource resource nodeName out.
Proof.
  eexists. apply (recordResource_run _ _ (map_to_list (resourceStatuses resource))).
  apply rangeOrder_exists.
Qed.


Lemma recordNode_total (node : Crmmon.Node) : ∃ out, recordNode node out.
Proof.
  destruct (forEach_total
              (λ resource, recordResource resource (Crmmon.Name node))
              (Crmmon.NodeResources node)) as (rout & Hres).
  { intros r. apply recordResource_total. }
  eexists. apply (recordNode_run _ (map_to_list (nodeStatuses node)) rout);
    [apply rangeOrder_exists|exact Hres].
Qed.

Lemma recordResource_inOrder (resource : Crmmon.Resource) (nodeName : string) :
  recordResource resource nodeName
    (resourceStatusLoop resource nodeName (resourceFlags resource)).
Proof.
  constructor. unfold rangeOrder, resourceStatuses.
  symmetry. apply map_to_list_to_map, resourceFlags_keys.
Qed.

Lemma resources_inOrder (nodeName : string) (resources : list Crmmon.Resource) :
  forEach (λ resource, recordResource resource nodeName) resources
    (resourcesInOrder nodeName resources).
Proof.
  induction resources as [|r rs IH]; [constructor|].
  unfold resourcesInOrder. cbn [flat_map].
  constructor; [apply recordResource_inOrder|exact IH].
Qed.

Lemma recordNodes_inOrder (crmMon : Crmmon.Root) :
  recordNodes crmMon (nodesInOrder (Crmmon.Nodes crmMon)).
Proof.
  unfold recordNodes. induction (Crmmon.Nodes crmMon) as [|node nodes IH];
    [constructor|].
  unfold nodesInOrder. cbn [flat_map]. constructor; [|exact IH].
  constructor; [|apply resources_inOrder].
  unfold rangeOrder, nodeStatuses.
  symmetry. apply map_to_list_to_map, nodeFlags_keys.
Qed.

(** The pass always completes: the run that visits the maps in the order
    of their literals is one of its runs. *)
Lemma Collect_inOrder (parseANSIC : string → error + Z) (env : Env) :
  Collect parseANSIC env (collectInOrder parseANSIC env).
Proof.
  unfold collectInOrder.
  destruct (crmMonParse env) as [err|crmMon] eqn:Hcrm.
  - by eapply Collect_crmMon_failed.
  - destruct (cibParse env) as [err|CIB] eqn:Hcib.
    + by eapply Collect_cib_failed.
    + eapply Collect_done; [done|done|apply recordNodes_inOrder|].
      apply resources_inOrder.
Qed.

Lemma flat_map_singleton {A B : Type} (f : A → B) (l : list A) :
  flat_map (λ x, [f x]) l = List.map f l.
Proof. induction l as [|x l IH]; [reflexivity|]. cbn. by rewrite IH. Qed.

Lemma samplesOf_none (name : string) (l : list Metric) :
  Forall (λ m, metricName m ≠ name) l → samplesOf name l = [].
Proof.
  induction 1 as [|m l Hm _ IH]; [reflexivity|].
  unfold samplesOf in *. cbn [List.filter]. unfold named at 1.
  destruct (String.eqb_spec (metricName m) name); [done|exact IH].
Qed.

Lemma recordNode_named (node : Crmmon.Node) (out : list Metric) :
  recordNode node out →
  Forall (λ m, metricName m = "nodes" ∨ metricName m = "resources") out.
Proof.
  intros [order rout _ Hres]. apply Forall_app. split.
  - rewrite nodeStatusLoop_map.
    eapply Forall_impl; [apply (map_named "nodes"); reflexivity|].
    intros m Hm. by left.
  - eapply forEach_Forall; [|exact Hres]. intros r o Hr.
    eapply Forall_impl; [exact (recordResource_named _ _ _ Hr)|].
    intros m Hm. by right.
Qed.

Lemma recordFailCounts_named (crmMon : Crmmon.Root) :
  Forall (λ m, metricName m = "fail_count") (recordFailCounts crmMon).
Proof.
  unfold recordFailCounts. apply Forall_flat_map, Forall_forall.
  intros node _. apply Forall_flat_map, Forall_forall.
  intros rh _. by constructor.
Qed.

Lemma recordMigrationThresholds_named (crmMon : Crmmon.Root) :
  Forall (λ m, metricName m = "migration_threshold")
    (recordMigrationThresholds crmMon).
Proof.
  unfold recordMigrationThresholds. apply Forall_flat_map, Forall_forall.
  intros node _. apply Forall_flat_map, Forall_forall.
  intros rh _. by constructor.
Qed.

Lemma recordResourceAgentsChanges_named (parseANSIC : string → error + Z)
    (crmMon : Crmmon.Root) :
  Forall (λ m, metricName m = "config_last_change")
    (recordResourceAgentsChanges parseANSIC crmMon).
Proof.
  unfold recordResourceAgentsChanges.
  destruct (parseANSIC _); by repeat constructor.
Qed.

Lemma recordConstraints_named (CIB : Cib.Root) :
  Forall (λ m, metricName m = "location_constraints") (recordConstraints CIB).
Proof.
  unfold recordConstraints. apply Forall_flat_map, Forall_forall.
  intros c _. by constructor.
Qed.

(** The [fail_count] samples of a pass are those of [recordFailCounts]. *)
Lemma Collect_fail_counts (parseANSIC : string → error + Z) (env : Env)
    (crmMon : Crmmon.Root) (CIB : Cib.Root) (out : list Metric) :
  crmMonParse env = inr crmMon → cibParse env = inr CIB →
  Collect parseANSIC env out →
  samplesOf "fail_count" out = recordFailCounts crmMon.
Proof.
  intros Hcrm Hcib [err Herr|crmMon' err _ Herr|crmMon' CIB' nodes ungrouped
                     Hcrm' Hcib' Hnodes Hungrouped]; try congruence.
  assert (crmMon' = crmMon) as -> by congruence.
  change (samplesOf "fail_count" (?m :: ?l)) with (samplesOf "fail_count" l).
  rewrite !samplesOf_app.
  rewrite (samplesOf_none _ nodes), (samplesOf_none _ ungrouped).
  - rewrite (samplesOf_same _ _ (recordFailCounts_named crmMon)).
    rewrite (samplesOf_other "fail_count" "migration_threshold" _
               ltac:(discriminate) (recordMigrationThresholds_named crmMon)).
    rewrite (samplesOf_other "fail_count" "config_last_change" _
               ltac:(discriminate)
               (recordResourceAgentsChanges_named parseANSIC crmMon)).
    rewrite (samplesOf_other "fail_count" "location_constraints" _
               ltac:(discriminate) (recordConstraints_named CIB')).
    cbn [app]. by rewrite !app_nil_r.
  - eapply forEach_Forall; [|exact Hungrouped]. intros r o Hr.
    eapply Forall_impl; [exact (recordResource_named _ _ _ Hr)|].
    by intros m ->.
  - eapply forEach_Forall; [|exact Hnodes]. intros node o Hnode.
    eapply Forall_impl; [exact (recordNode_named _ _ Hnode)|].
    by intros m [-> | ->].
Qed.

End PacemakerFacts.

(** ** The DRBD collector *)
Module DrbdFacts.
Import Strings Strconv Collector Sources Spec Drbd LibraryFacts LoopFacts.

Lemma bind_emitted {A B : Type} (r : Run A) (k : A → Run B) :
  emitted (r ≫= k) =
    emitted r ++ match returned r with
                 | Some x => emitted (k x)
                 | None => []
                 end.
Proof.
  unfold mbind, run_bind, bind.
  destruct (returned r); cbn [emitted]; [reflexivity|by rewrite app_nil_r].
Qed.

Lemma bind_returned {A B : Type} (r : Run A) (k : A → Run B) :
  returned (r ≫= k) = returned r ≫= λ x, returned (k x).
Proof. unfold mbind at 1, run_bind, bind. by destruct (returned r). Qed.

Lemma bind_Forall {A B : Type} (P : Metric → Prop) (r : Run A) (k : A → Run B) :
  Forall P (emitted r) → (∀ x, Forall P (emitted (k x))) →
  Forall P (emitted (r ≫= k)).
Proof.
  intros Hr Hk. rewrite bind_emitted. apply Forall_app. split; [exact Hr|].
  destruct (returned r); [apply Hk|constructor].
Qed.

Lemma eachOf_Forall {A : Type} (P : Metric → Prop) (l : list A)
    (body : A → Run unit) :
  (∀ x, Forall P (emitted (body x))) → Forall P (emitted (eachOf l body)).
Proof.
  intros Hbody. induction l as [|x l IH]; [constructor|].
  cbn [eachOf]. apply bind_Forall; [apply Hbody|intros _; exact IH].
Qed.

(** A loop without a panicking iteration returns. *)
Lemma eachOf_returns {A : Type} (l : list A) (body : A → Run unit) :
  Forall (λ x, returned (body x) = Some tt) l →
  returned (eachOf l body) = Some tt.
Proof.
  induction 1 as [|x l Hx _ IH]; [reflexivity|].
  cbn [eachOf]. rewrite bind_returned, Hx. exact IH.
Qed.

(** A loop with a panicking iteration panics. *)
Lemma eachOf_panics {A : Type} (l : list A) (body : A → Run unit) (x : A) :
  x ∈ l → returned (body x) = None → returned (eachOf l body) = None.
Proof.
  intros Hin Hx. induction l as [|y l IH]; [by apply elem_of_nil in Hin|].
  cbn [eachOf]. rewrite bind_returned.
  destruct (returned (body y)) as [[]|] eqn:Hy; [|reflexivity].
  apply elem_of_cons in Hin as [->|Hin]; [congruence|by apply IH].
Qed.

Lemma ret_bind {A B : Type} (x : A) (k : A → Run B) : (ret x ≫= k) = k x.
Proof. unfold mbind, run_bind, bind. cbn. by destruct (k x). Qed.

(** A run that ends with [ret tt] is the run before it. *)
Lemma bind_ret_tt (r : Run unit) : (r ≫= λ _, ret tt) = r.
Proof.
  unfold mbind, run_bind, bind. destruct r as [out [[]|]]; cbn [returned emitted];
    [by rewrite app_nil_r|reflexivity].
Qed.

Lemma Glob_matches (files : list string) (f : string) :
  f ∈ files → HasPrefix f splitBrainMarker = true → Glob files ≠ [].
Proof.
  intros Hin Hf Hnone.
  assert (Hg : In f (Glob files))
    by (apply List.filter_In; split; [by apply list_elem_of_In|exact Hf]).
  rewrite Hnone in Hg. destruct Hg.
Qed.

Lemma splitBrainEntry_matched (files : list string) (f : string) :
  Glob files ≠ [] → splitBrainEntry files f = splitBrainSample f.
Proof. unfold splitBrainEntry. by destruct (Glob files). Qed.

Lemma splitBrainEntry_unmatched (files : list string) (f : string) :
  Glob files = [] → splitBrainEntry files f = ret tt.
Proof. unfold splitBrainEntry. by intros ->. Qed.

(** The entry's name does not hold the marker: the index [1] is out of
    range. *)
Lemma splitBrainSample_panics (f : string) :
  Split f splitBrainMarker !! 1%nat = None → splitBrainSample f = panic.
Proof. unfold splitBrainSample, index. by intros ->. Qed.

Lemma index_found {A : Type} (l : list A) (i : nat) (x : A) :
  l !! i = Some x → index l i = ret x.
Proof. unfold index. by intros ->. Qed.

(** An entry whose suffix does not split in two at the hyphen is passed
    over. *)
Lemma splitBrainSample_skips (f suffix : string) :
  Split f splitBrainMarker !! 1%nat = Some suffix →
  length (Split suffix "-") ≠ 2%nat →
  splitBrainSample f = ret tt.
Proof.
  intros Hsuffix Hparts. unfold splitBrainSample.
  rewrite (index_found _ _ _ Hsuffix), ret_bind.
  by destruct (Nat.eqb_spec (length (Split suffix "-")) 2).
Qed.

(** An entry whose suffix splits in two yields the sample of the two
    parts. *)
Lemma splitBrainSample_emits (f suffix resource volume : string) :
  Split f splitBrainMarker !! 1%nat = Some suffix →
  Split suffix "-" = [resource; volume] →
  splitBrainSample f =
    emit (MakeGaugeMetric "split_brain" (Float64.ofInt 1) [resource; volume]).
Proof.
  intros Hsuffix Hparts. unfold splitBrainSample.
  rewrite (index_found _ _ _ Hsuffix), ret_bind, Hparts.
  cbn [length Nat.eqb negb]. unfold index. cbn [lookup list_lookup].
  by rewrite !ret_bind.
Qed.

Lemma index_Forall {A : Type} (P : Metric → Prop) (l : list A) (i : nat) :
  Forall P (emitted (index l i)).
Proof. unfold index. destruct (l !! i); constructor. Qed.

Lemma splitBrainSample_shape (f : string) :
  Forall DrbdSample (emitted (splitBrainSample f)).
Proof.
  unfold splitBrainSample. apply bind_Forall; [apply index_Forall|].
  intros resAndVolume. destruct (negb _); [constructor|].
  apply bind_Forall; [apply index_Forall|]. intros resource.
  apply bind_Forall; [apply index_Forall|]. intros volume.
  repeat constructor.
Qed.

Lemma splitBrainSample_named (f : string) :
  Forall (λ m, metricName m = "split_brain") (emitted (splitBrainSample f)).
Proof.
  unfold splitBrainSample. apply bind_Forall; [apply index_Forall|].
  intros resAndVolume. destruct (negb _); [constructor|].
  apply bind_Forall; [apply index_Forall|]. intros resource.
  apply bind_Forall; [apply index_Forall|]. intros volume.
  by repeat constructor.
Qed.

(** Once the marker is found in the name, the iteration returns. *)
Lemma splitBrainSample_returns (f : string) :
  is_Some (Split f splitBrainMarker !! 1%nat) →
  returned (splitBrainSample f) = Some tt.
Proof.
  intros [resAndVolume Hsome]. unfold splitBrainSample.
  rewrite (index_found _ _ _ Hsome), ret_bind.
  destruct (Nat.eqb_spec (length (Split resAndVolume "-")) 2) as [Hlen|Hlen];
    [|reflexivity].
  cbn [negb].
  destruct (Split resAndVolume "-") as [|a [|b [|c l]]]; try discriminate Hlen.
  reflexivity.
Qed.

Lemma Split_marked (f : string) :
  HasPrefix f splitBrainMarker = true →
  is_Some (Split f splitBrainMarker !! 1%nat).
Proof.
  unfold HasPrefix, Split, splitBrainMarker. intros Hpre.
  destruct f as [|c f]; [discriminate Hpre|].
  cbn [splitScan]. rewrite Hpre.
  pose proof (splitScan_nonempty "drbd-split-brain-detected-" f
                (Nat.pred (String.length "drbd-split-brain-detected-"))
                EmptyString) as Hne.
  destruct (splitScan _ _ _ f) as [|piece pieces]; [done|]. by eexists.
Qed.

End DrbdFacts.

(** ** The shapes of the samples *)
Module ShapeFacts.
Import Strings Strconv Collector Sources Spec.
Import LibraryFacts LoopFacts PacemakerFacts DrbdFacts.

Lemma recordDrbdSplitBrainMetric_shape (files : list string) :
  Forall DrbdSample (Drbd.emitted (Drbd.recordDrbdSplitBrainMetric files)).
Proof.
  apply eachOf_Forall. intros f. unfold Drbd.splitBrainEntry.
  destruct (Drbd.Glob files); [constructor|apply splitBrainSample_shape].
Qed.

Lemma recordDrbdSplitBrainMetric_named (files : list string) :
  Forall (λ m, metricName m = "split_brain")
    (Drbd.emitted (Drbd.recordDrbdSplitBrainMetric files)).
Proof.
  apply eachOf_Forall. intros f. unfold Drbd.splitBrainEntry.
  destruct (Drbd.Glob files); [constructor|apply splitBrainSample_named].
Qed.

Lemma emit_Forall (P : Metric → Prop) (m : Metric) :
  P m → Forall P (Drbd.emitted (Drbd.emit m)).
Proof. intros Hm. by repeat constructor. Qed.

Lemma recordDevice_shape (resource : Drbd.drbdStatus) (device : Drbd.Device) :
  Forall DrbdSample (Drbd.emitted (Drbd.recordDevice resource device)).
Proof.
  unfold Drbd.recordDevice.
  repeat (apply bind_Forall; [apply emit_Forall|intros _]);
    try destruct (Drbd.Quorum device); try apply emit_Forall;
    try (by constructor);
    (apply sample_device; rewrite !elem_of_cons; tauto).
Qed.

Lemma recordPeerDevice_shape (resource : Drbd.drbdStatus)
    (conn : Drbd.Connection) (peerDev : Drbd.PeerDevice) :
  Forall DrbdSample (Drbd.emitted (Drbd.recordPeerDevice resource conn peerDev)).
Proof.
  unfold Drbd.recordPeerDevice.
  repeat (apply bind_Forall; [apply emit_Forall|intros _]);
    try apply emit_Forall; try (by constructor);
    (apply sample_connection_gauge; rewrite !elem_of_cons; tauto).
Qed.

Lemma recordResource_shape (resource : Drbd.drbdStatus) :
  Forall DrbdSample (Drbd.emitted (Drbd.recordResource resource)).
Proof.
  unfold Drbd.recordResource. apply bind_Forall.
  - apply eachOf_Forall, recordDevice_shape.
  - intros _. destruct (_ =? _)%nat; [constructor|].
    apply eachOf_Forall. intros conn.
    destruct (_ =? _)%nat; [constructor|].
    apply eachOf_Forall, recordPeerDevice_shape.
Qed.

(** Every sample of a DRBD pass has one of the shapes of [DrbdSample]. *)
Lemma drbd_Collect_shape (jsonUnmarshal : string → error + list Drbd.drbdStatus)
    (env : Env) :
  Forall DrbdSample (Drbd.emitted (Drbd.Collect jsonUnmarshal env)).
Proof.
  unfold Drbd.Collect. apply bind_Forall;
    [apply recordDrbdSplitBrainMetric_shape|intros _].
  destruct (drbdsetupStatus env) as [err|raw]; [constructor|].
  destruct (Drbd.parseDrbdStatus jsonUnmarshal raw) as [err|devs]; [constructor|].
  apply eachOf_Forall, recordResource_shape.
Qed.

Lemma pacemaker_recordResource_shape (resource : Crmmon.Resource)
    (nodeName : string) (out : list Metric) :
  Pacemaker.recordResource resource nodeName out → Forall PacemakerSample out.
Proof.
  intros [order _]. rewrite resourceStatusLoop_map.
  induction (trueFlags order); constructor; [constructor|assumption].
Qed.

Lemma pacemaker_recordNode_shape (node : Crmmon.Node) (out : list Metric) :
  Pacemaker.recordNode node out → Forall PacemakerSample out.
Proof.
  intros [order rout _ Hres]. apply Forall_app. split.
  - rewrite nodeStatusLoop_map.
    induction (trueFlags order); constructor; [constructor|assumption].
  - eapply forEach_Forall; [|exact Hres].
    intros r o Hr. exact (pacemaker_recordResource_shape _ _ _ Hr).
Qed.

(** Every sample of a Pacemaker pass has one of the shapes of
    [PacemakerSample]. *)
Lemma pacemaker_Collect_shape (parseANSIC : string → error + Z) (env : Env)
    (out : list Metric) :
  Pacemaker.Collect parseANSIC env out → Forall PacemakerSample out.
Proof.
  intros [err _|crmMon err _ _|crmMon CIB nodes ungrouped _ _ Hnodes Hungrouped];
    [constructor|constructor|].
  constructor; [constructor|]. rewrite !Forall_app. split_and!.
  - eapply forEach_Forall; [|exact Hnodes]. apply pacemaker_recordNode_shape.
  - eapply forEach_Forall; [|exact Hungrouped].
    intros r o Hr. exact (pacemaker_recordResource_shape _ _ _ Hr).
  - unfold Pacemaker.recordFailCounts. apply Forall_flat_map, Forall_forall.
    intros node _. apply Forall_flat_map, Forall_forall.
    intros rh _. repeat constructor.
  - unfold Pacemaker.recordMigrationThresholds.
    apply Forall_flat_map, Forall_forall.
    intros node _. apply Forall_flat_map, Forall_forall.
    intros rh _. repeat constructor.
  - unfold Pacemaker.recordResourceAgentsChanges.
    destruct (parseANSIC _); repeat constructor.
  - unfold Pacemaker.recordConstraints. apply Forall_flat_map, Forall_forall.
    intros c _. repeat constructor.
Qed.

Lemma PacemakerSample_arity (m : Metric) :
  PacemakerSample m → arityOk Pacemaker.collector m.
Proof. intros []; (eexists; split; [reflexivity|reflexivity]). Qed.

Lemma DrbdSample_arity (m : Metric) :
  DrbdSample m → arityOk Drbd.collector m.
Proof.
  intros [| |name v resource volume Hname| |name v resource peer volume Hname];
    try (eexists; split; [reflexivity|reflexivity]);
    repeat (apply elem_of_cons in Hname as [->|Hname];
            [eexists; split; [reflexivity|reflexivity]|]);
    by apply elem_of_nil in Hname.
Qed.



End ShapeFacts.

(** ** Properties of the Pacemaker pass *)
Module PacemakerClaims.
Import Strings Strconv Collector Sources Spec Pacemaker.
Import LibraryFacts LoopFacts PacemakerFacts.

(** The [location_constraints] samples of a pass are those of
    [recordConstraints]. *)
Lemma Collect_constraints (parseANSIC : string → error + Z) (env : Env)
    (crmMon : Crmmon.Root) (CIB : Cib.Root) (out : list Metric) :
  crmMonParse env = inr crmMon → cibParse env = inr CIB →
  Collect parseANSIC env out →
  samplesOf "location_constraints" out = recordConstraints CIB.
Proof.
  intros Hcrm Hcib [err Herr|crmMon' err _ Herr|crmMon' CIB' nodes ungrouped
                     Hcrm' Hcib' Hnodes Hungrouped]; try congruence.
  assert (CIB' = CIB) as -> by congruence.
  change (samplesOf "location_constraints" (?m :: ?l))
    with (samplesOf "location_constraints" l).
  rewrite !samplesOf_app.
  rewrite (samplesOf_none _ nodes), (samplesOf_none _ ungrouped).
  - rewrite (samplesOf_same _ _ (recordConstraints_named CIB)).
    rewrite (samplesOf_other "location_constraints" "migration_threshold" _
               ltac:(discriminate) (recordMigrationThresholds_named crmMon')).
    rewrite (samplesOf_other "location_constraints" "config_last_change" _
               ltac:(discriminate)
               (recordResourceAgentsChanges_named parseANSIC crmMon')).
    rewrite (samplesOf_other "location_constraints" "fail_count" _
               ltac:(discriminate) (recordFailCounts_named crmMon')).
    reflexivity.
  - eapply forEach_Forall; [|exact Hungrouped]. intros r o Hr.
    eapply Forall_impl; [exact (recordResource_named _ _ _ Hr)|].
    by intros m ->.
  - eapply forEach_Forall; [|exact Hnodes]. intros node o Hnode.
    eapply Forall_impl; [exact (recordNode_named _ _ Hnode)|].
    by intros m [-> | ->].
Qed.

Lemma failCountValue_ok (node : Crmmon.HistoryNode)
    (resHistory : Crmmon.ResourceHistory) :
  failCountSampleOk (node, resHistory)
    (MakeGaugeMetric "fail_count" (failCountValue resHistory)
       [Crmmon.HistoryNodeName node; Crmmon.HistoryName resHistory]).
Proof.
  unfold failCountSampleOk, failCountValue. cbn [fst snd metricName labelValues
    metricValue MakeGaugeMetric].
  split_and!; try reflexivity.
  - by intros ->.
  - intros ->. split; [reflexivity|]. by vm_compute.
  - intros Hlt. destruct (Z.leb_spec 1000000 (Crmmon.FailCount resHistory));
      [lia|reflexivity].
Qed.

Lemma recordFailCounts_ok (crmMon : Crmmon.Root) :
  Forall2 failCountSampleOk (historyPairs crmMon) (recordFailCounts crmMon).
Proof.
  unfold historyPairs, recordFailCounts.
  induction (Crmmon.NodeHistory crmMon) as [|node nodes IH]; [constructor|].
  cbn [flat_map]. apply Forall2_app; [|exact IH].
  induction (Crmmon.ResourceHistories node) as [|rh rhs IHr]; [constructor|].
  cbn [flat_map List.map app]. constructor; [apply failCountValue_ok|exact IHr].
Qed.

(** C4. For every (node, resource) pair of the node history, a pass sends
    exactly one [fail_count] sample, labelled with the pair; its value is
    positive infinity when the raw count is 1000000 and exactly 999999.0
    when it is 999999, counts below the sentinel being passed through. *)
Theorem fail_count_samples (parseANSIC : string → error + Z) (env : Env)
    (crmMon : Crmmon.Root) (CIB : Cib.Root) (out : list Metric) :
  crmMonParse env = inr crmMon → cibParse env = inr CIB →
  Pacemaker.Collect parseANSIC env out →
  Forall2 failCountSampleOk (historyPairs crmMon) (samplesOf "fail_count" out).
Proof.
  intros Hcrm Hcib Hrun.
  rewrite (Collect_fail_counts _ _ _ _ _ Hcrm Hcib Hrun).
  apply recordFailCounts_ok.
Qed.

Lemma fail_count_samples_witness :
  Pacemaker.Collect Examples.clock Examples.healthy
    (collectInOrder Examples.clock Examples.healthy) ∧
  Forall2 failCountSampleOk (historyPairs Examples.crmMon)
    (samplesOf "fail_count" (collectInOrder Examples.clock Examples.healthy)).
Proof.
  split; [apply Collect_inOrder|].
  apply (fail_count_samples Examples.clock Examples.healthy Examples.crmMon
           Examples.cib); [reflexivity|reflexivity|apply Collect_inOrder].
Defined.

Lemma constraintScore_number (score : string) :
  score ≠ "INFINITY" → score ≠ "-INFINITY" →
  constraintScore score = Float64.ofInt (atoiResult score).1.
Proof.
  intros Hpos Hneg. unfold constraintScore.
  destruct (String.eqb_spec score "INFINITY"); [done|].
  destruct (String.eqb_spec score "-INFINITY"); [done|].
  rewrite Atoi_spec. by destruct (atoiResult score).
Qed.

Lemma signedInteger_digits (score : string) (z : Z) :
  signedInteger score = Some z →
  allDigits (unsignedPart score) = true ∧
  z = if negative score then - digitsValue 0 (unsignedPart score)
      else digitsValue 0 (unsignedPart score).
Proof.
  unfold signedInteger. destruct (unsignedPart score) as [|b body] eqn:Hbody;
    [discriminate|].
  destruct (allDigits (String b body)) eqn:Hall; [|discriminate].
  intros [= <-]. by split.
Qed.

Lemma signedInteger_not_token (score : string) (z : Z) :
  signedInteger score = Some z → score ≠ "INFINITY" ∧ score ≠ "-INFINITY".
Proof. intros Hz. split; intros ->; discriminate Hz. Qed.

Lemma unsignedPart_length (score : string) :
  (String.length (unsignedPart score) <= String.length score)%nat.
Proof.
  destruct score as [|c s]; [done|]. cbn [unsignedPart].
  destruct (isSign c); cbn [String.length]; lia.
Qed.

(** The score switch decodes every string as [scoreDecoded] states. *)
Lemma constraintScore_decoded (score : string) :
  scoreDecoded score (constraintScore score).
Proof.
  unfold scoreDecoded. split_and!.
  - by intros ->.
  - by intros ->.
  - intros z Hz Hfit.
    destruct (signedInteger_not_token _ _ Hz) as [Hpos Hneg].
    rewrite constraintScore_number by assumption.
    destruct (signedInteger_digits _ _ Hz) as [Hall Hval].
    pose proof (digitsValue_nonneg _ Hall) as Hnn.
    unfold atoiResult. rewrite leadingDigits_allDigits, Hz by assumption.
    replace (maxUint64 <? digitsValue 0 (unsignedPart score)) with false
      by (symmetry; apply Z.ltb_ge; unfold maxUint64;
          destruct (negative score); lia).
    replace ((z <? - 2 ^ 63) || (2 ^ 63 <=? z)) with false; [reflexivity|].
    symmetry. apply orb_false_iff. rewrite Z.ltb_ge, Z.leb_gt. lia.
  - intros z Hz Hout.
    destruct (signedInteger_not_token _ _ Hz) as [Hpos Hneg].
    rewrite constraintScore_number by assumption.
    unfold atoiResult. rewrite Hz.
    destruct (maxUint64 <? _); [reflexivity|].
    replace ((z <? - 2 ^ 63) || (2 ^ 63 <=? z)) with true; [reflexivity|].
    symmetry. apply orb_true_iff. rewrite Z.ltb_lt, Z.leb_le. lia.
  - intros Hpos Hneg Hnone. rewrite constraintScore_number by assumption.
    unfold atoiResult. rewrite Hnone.
    by destruct (maxUint64 <? _).
  - intros Hpos Hneg Hnone Hlen. rewrite constraintScore_number by assumption.
    unfold atoiResult. rewrite Hnone.
    pose proof (unsignedPart_length score) as Hu.
    pose proof (leadingDigits_length (unsignedPart score)) as Hl.
    pose proof (short_digits_small _ (allDigits_leadingDigits (unsignedPart score))
                  ltac:(lia)) as Hsmall.
    replace (maxUint64 <? _) with false; [reflexivity|].
    symmetry. apply Z.ltb_ge. unfold maxUint64. lia.
Qed.

Lemma recordConstraints_ok (CIB : Cib.Root) :
  Forall2 constraintSampleOk (Cib.RscLocations CIB) (recordConstraints CIB).
Proof.
  unfold recordConstraints.
  induction (Cib.RscLocations CIB) as [|c cs IH]; [constructor|].
  cbn [flat_map app]. constructor; [|exact IH].
  split_and!; [reflexivity|reflexivity|apply constraintScore_decoded].
Qed.

(** C5 (amended). For every location constraint a pass sends exactly one
    [location_constraints] sample, whose value decodes the score string:
    "INFINITY" as +infinity, "-INFINITY" as -infinity, a well-formed signed
    integer that fits 64 bits as that integer, one that does not fit (and
    any string whose leading digits overflow 64 bits) as the bound of the
    64-bit range, and every other string as 0.0. *)
Theorem location_constraint_samples (parseANSIC : string → error + Z)
    (env : Env) (crmMon : Crmmon.Root) (CIB : Cib.Root) (out : list Metric) :
  crmMonParse env = inr crmMon → cibParse env = inr CIB →
  Pacemaker.Collect parseANSIC env out →
  Forall2 constraintSampleOk (Cib.RscLocations CIB)
    (samplesOf "location_constraints" out) ∧
  Float64.denotes (constraintScore "150") 150.
Proof.
  intros Hcrm Hcib Hrun. split; [|by vm_compute].
  rewrite (Collect_constraints _ _ _ _ _ Hcrm Hcib Hrun).
  apply recordConstraints_ok.
Qed.

Lemma location_constraint_samples_witness :
  Pacemaker.Collect Examples.clock Examples.healthy
    (collectInOrder Examples.clock Examples.healthy) ∧
  Forall2 constraintSampleOk (Cib.RscLocations Examples.cib)
    (samplesOf "location_constraints"
       (collectInOrder Examples.clock Examples.healthy)) ∧
  Float64.denotes (constraintScore "150") 150.
Proof.
  split; [apply Collect_inOrder|].
  apply (location_constraint_samples Examples.clock Examples.healthy
           Examples.crmMon Examples.cib);
    [reflexivity|reflexivity|apply Collect_inOrder].
Defined.

(** C5, as stated, fails: the twenty nines are a well-formed integer, yet
    the sample carries neither that integer nor 0.0 but the largest 64-bit
    integer; followed by a letter they are no integer, and the value is not
    0.0 either. *)
Lemma score_out_of_range_counterexample :
  signedInteger "99999999999999999999" = Some 99999999999999999999 ∧
  constraintScore "99999999999999999999" = Float64.ofInt (2 ^ 63 - 1) ∧
  constraintScore "99999999999999999999" ≠ decodeScore "99999999999999999999" ∧
  signedInteger "99999999999999999999x" = None ∧
  constraintScore "99999999999999999999x" = Float64.ofInt (2 ^ 63 - 1) ∧
  constraintScore "99999999999999999999x" ≠ decodeScore "99999999999999999999x".
Proof. by vm_compute. Qed.







(** C10. When [crm_mon] parses and [cibadmin] does not, the pass completes
    and sends no sample at all: nothing of what the parsed [crm_mon]
    snapshot alone determines is sent. *)
Theorem cib_failure_suppresses_pass (parseANSIC : string → error + Z)
    (env : Env) (crmMon : Crmmon.Root) (err : error) :
  crmMonParse env = inr crmMon → cibParse env = inl err →
  Pacemaker.Collect parseANSIC env [] ∧
  ∀ out, Pacemaker.Collect parseANSIC env out → out = [].
Proof.
  intros Hcrm Hcib. split; [by eapply Collect_cib_failed|].
  intros out [e He|crmMon' e _ He|crmMon' CIB nodes ungrouped _ HCIB _ _];
    [reflexivity|reflexivity|congruence].
Qed.

Lemma cib_failure_suppresses_pass_witness :
  Pacemaker.Collect Examples.clock Examples.cibDown [] ∧
  ∀ out, Pacemaker.Collect Examples.clock Examples.cibDown out → out = [].
Proof.
  apply (cib_failure_suppresses_pass Examples.clock Examples.cibDown
           Examples.crmMon "cibadmin: exit status 1"); reflexivity.
Defined.

End PacemakerClaims.

(** ** Properties of the samples of both collectors *)
Module CollectorClaims.
Import Strings Strconv Collector Sources Spec.
Import LibraryFacts LoopFacts PacemakerFacts DrbdFacts ShapeFacts.

(** C9. Every sample of either collector, on any snapshot, supplies as many
    label values as its registered descriptor has label names; the
    descriptors have the label counts the specification lists. *)
Theorem label_arity_matches_descriptor (parseANSIC : string → error + Z)
    (jsonUnmarshal : string → error + list Drbd.drbdStatus) (env : Env)
    (out : list Metric) :
  Pacemaker.Collect parseANSIC env out →
  Forall (arityOk Pacemaker.collector) out ∧
  Forall (arityOk Drbd.collector)
    (Drbd.emitted (Drbd.Collect jsonUnmarshal env)) ∧
  aritiesAre Pacemaker.collector pacemakerArities ∧
  aritiesAre Drbd.collector drbdArities.
Proof.
  intros Hrun. split_and!.
  - eapply Forall_impl; [exact (pacemaker_Collect_shape _ _ _ Hrun)|].
    apply PacemakerSample_arity.
  - eapply Forall_impl; [apply drbd_Collect_shape|]. apply DrbdSample_arity.
  - split; [|by vm_compute]. repeat constructor.
  - split; [|by vm_compute]. repeat constructor.
Qed.

Lemma label_arity_matches_descriptor_witness :
  Pacemaker.Collect Examples.clock Examples.healthy
    (Pacemaker.collectInOrder Examples.clock Examples.healthy) ∧
  Forall (arityOk Pacemaker.collector)
    (Pacemaker.collectInOrder Examples.clock Examples.healthy) ∧
  Forall (arityOk Drbd.collector)
    (Drbd.emitted (Drbd.Collect Examples.decoder Examples.healthy)) ∧
  aritiesAre Pacemaker.collector pacemakerArities ∧
  aritiesAre Drbd.collector drbdArities.
Proof.
  split; [apply Collect_inOrder|].
  apply (label_arity_matches_descriptor Examples.clock Examples.decoder
           Examples.healthy), Collect_inOrder.
Defined.






End CollectorClaims.

(** ** Properties of the DRBD pass *)
Module DrbdClaims.
Import Strings Strconv Collector Sources Spec.
Import LibraryFacts LoopFacts PacemakerFacts DrbdFacts ShapeFacts.

(** The runs of the Pacemaker pass depend on the answers of the
    resource-manager tools only. *)
Lemma pacemaker_Collect_sources (parseANSIC : string → error + Z)
    (env env' : Env) (out : list Metric) :
  sameClusterSources env env' →
  Pacemaker.Collect parseANSIC env out → Pacemaker.Collect parseANSIC env' out.
Proof.
  intros [Hcrm Hcib] [err He|crmMon err Hc He|crmMon CIB nodes ungrouped Hc Hb Hn Hu].
  - eapply Pacemaker.Collect_crmMon_failed. by rewrite <- Hcrm.
  - eapply Pacemaker.Collect_cib_failed; [by rewrite <- Hcrm|by rewrite <- Hcib].
  - eapply Pacemaker.Collect_done; [by rewrite <- Hcrm|by rewrite <- Hcib|done|done].
Qed.

Lemma drbd_Collect_failed (jsonUnmarshal : string → error + list Drbd.drbdStatus)
    (env : Env) :
  drbdSourceFails jsonUnmarshal env →
  Drbd.Collect jsonUnmarshal env =
    Drbd.recordDrbdSplitBrainMetric (splitBrainDir env).
Proof.
  unfold Drbd.Collect, Drbd.parseDrbdStatus.
  intros [(err & ->)|(raw & err & -> & ->)]; apply bind_ret_tt.
Qed.

(** C1 (amended). When [drbdsetup status] cannot be run or its output does
    not decode, the DRBD pass sends nothing that comes from that output: it
    sends what the split-brain projection sends from the marker directory,
    which runs before the command, all of it [split_brain] samples; the
    Pacemaker pass is the same whatever the DRBD sources answer. *)
Theorem drbd_failure_keeps_split_brain
    (jsonUnmarshal : string → error + list Drbd.drbdStatus)
    (parseANSIC : string → error + Z) (env : Env) :
  drbdSourceFails jsonUnmarshal env →
  Drbd.Collect jsonUnmarshal env
    = Drbd.recordDrbdSplitBrainMetric (splitBrainDir env) ∧
  Forall (λ m, metricName m = "split_brain")
    (Drbd.emitted (Drbd.Collect jsonUnmarshal env)) ∧
  (∀ env' out, sameClusterSources env env' →
     Pacemaker.Collect parseANSIC env out ↔
     Pacemaker.Collect parseANSIC env' out).
Proof.
  intros Hfail. split_and!.
  - by apply drbd_Collect_failed.
  - rewrite drbd_Collect_failed by assumption.
    apply recordDrbdSplitBrainMetric_named.
  - intros env' out Hsame. split; apply pacemaker_Collect_sources;
      [exact Hsame|destruct Hsame; by split].
Qed.

Lemma drbd_failure_keeps_split_brain_witness :
  drbdSourceFails Examples.decoder Examples.drbdGarbled ∧
  Drbd.Collect Examples.decoder Examples.drbdGarbled
    = Drbd.recordDrbdSplitBrainMetric (splitBrainDir Examples.drbdGarbled) ∧
  Forall (λ m, metricName m = "split_brain")
    (Drbd.emitted (Drbd.Collect Examples.decoder Examples.drbdGarbled)) ∧
  (∀ env' out, sameClusterSources Examples.drbdGarbled env' →
     Pacemaker.Collect Examples.clock Examples.drbdGarbled out ↔
     Pacemaker.Collect Examples.clock env' out).
Proof.
  assert (Hfail : drbdSourceFails Examples.decoder Examples.drbdGarbled).
  { right. exists "", "unexpected end of JSON input". by split. }
  split; [exact Hfail|].
  exact (drbd_failure_keeps_split_brain Examples.decoder Examples.clock
           Examples.drbdGarbled Hfail).
Defined.

(** C1, as stated, fails: with a marker file in the directory, a pass in
    which [drbdsetup] cannot be run still sends a [split_brain] sample. *)
Lemma drbd_failure_counterexample :
  drbdsetupStatus Examples.drbdDown = inl "drbdsetup: exit status 1" ∧
  Drbd.emitted (Drbd.Collect Examples.decoder Examples.drbdDown)
    = [MakeGaugeMetric "split_brain" (Float64.ofInt 1) ["myres"; "0"]] ∧
  length (Drbd.emitted (Drbd.Collect Examples.decoder Examples.drbdDown)) = 1%nat.
Proof. by vm_compute. Qed.

(** A directory in which the glob matches and some entry's name does not
    hold the marker makes the projection panic. *)
Lemma split_brain_panics (files : list string) (f : string) :
  Drbd.Glob files ≠ [] → f ∈ files →
  Split f Drbd.splitBrainMarker !! 1%nat = None →
  Drbd.returned (Drbd.recordDrbdSplitBrainMetric files) = None.
Proof.
  intros Hglob Hin Hnone. apply (eachOf_panics _ _ f Hin).
  rewrite splitBrainEntry_matched by assumption.
  by rewrite splitBrainSample_panics.
Qed.

(** A directory in which every entry begins with the marker, or none does,
    never makes the projection panic. *)
Lemma split_brain_returns (files : list string) :
  Forall (λ f, HasPrefix f Drbd.splitBrainMarker = true) files ∨
  Drbd.Glob files = [] →
  Drbd.returned (Drbd.recordDrbdSplitBrainMetric files) = Some tt.
Proof.
  intros [Hall|Hnone]; apply eachOf_returns.
  - eapply Forall_impl; [exact Hall|]. intros f Hf. cbv beta.
    unfold Drbd.splitBrainEntry. destruct (Drbd.Glob files); [reflexivity|].
    by apply splitBrainSample_returns, Split_marked.
  - apply Forall_forall. intros f _.
    by rewrite splitBrainEntry_unmatched.
Qed.

(** C2 fails on the code: in a directory that holds a marker file and a file
    named README, the iteration for README indexes past the end of a
    one-element slice; the projection panics, and so does the pass. *)
Theorem split_brain_foreign_file_panics :
  Drbd.Glob (splitBrainDir Examples.foreign) = [Examples.marker] ∧
  Split "README" Drbd.splitBrainMarker = ["README"] ∧
  Drbd.recordDrbdSplitBrainMetric (splitBrainDir Examples.foreign)
    = Drbd.mkRun [] None ∧
  Drbd.returned (Drbd.Collect Examples.decoder Examples.foreign) = None.
Proof. by vm_compute. Qed.

(** C8. In any directory that holds it, the marker file
    drbd-split-brain-detected-myres-0 yields exactly one [split_brain]
    sample of value 1 with labels ("myres", "0"); the files
    drbd-split-brain-detected-myres and drbd-split-brain-detected-my-res-0,
    whose suffix has one and three parts, yield none, as does every entry
    whose suffix has fewer or more than two hyphen-separated parts. *)
Theorem split_brain_marker_samples (files : list string) :
  "drbd-split-brain-detected-myres-0" ∈ files →
  Drbd.splitBrainEntry files "drbd-split-brain-detected-myres-0"
    = Drbd.mkRun
        [MakeGaugeMetric "split_brain" (Float64.ofInt 1) ["myres"; "0"]]
        (Some tt) ∧
  Float64.denotes (Float64.ofInt 1) 1 ∧
  Drbd.splitBrainEntry files "drbd-split-brain-detected-myres"
    = Drbd.mkRun [] (Some tt) ∧
  Drbd.splitBrainEntry files "drbd-split-brain-detected-my-res-0"
    = Drbd.mkRun [] (Some tt) ∧
  Drbd.recordDrbdSplitBrainMetric ["drbd-split-brain-detected-myres-0"]
    = Drbd.mkRun
        [MakeGaugeMetric "split_brain" (Float64.ofInt 1) ["myres"; "0"]]
        (Some tt) ∧
  Drbd.recordDrbdSplitBrainMetric ["drbd-split-brain-detected-myres"]
    = Drbd.mkRun [] (Some tt) ∧
  (∀ f suffix,
     Split f Drbd.splitBrainMarker !! 1%nat = Some suffix →
     length (Split suffix "-") ≠ 2%nat →
     Drbd.splitBrainEntry files f = Drbd.mkRun [] (Some tt)).
Proof.
  intros Hin.
  assert (Hglob : Drbd.Glob files ≠ []) by (by eapply Glob_matches).
  rewrite !splitBrainEntry_matched by assumption.
  split_and!; try (by vm_compute).
  intros f suffix Hsuffix Hparts.
  rewrite splitBrainEntry_matched by assumption.
  exact (splitBrainSample_skips f suffix Hsuffix Hparts).
Qed.

Lemma split_brain_marker_samples_witness :
  "drbd-split-brain-detected-myres-0"
    ∈ ["drbd-split-brain-detected-myres"; "drbd-split-brain-detected-myres-0"] ∧
  Drbd.splitBrainEntry
    ["drbd-split-brain-detected-myres"; "drbd-split-brain-detected-myres-0"]
    "drbd-split-brain-detected-myres-0"
    = Drbd.mkRun
        [MakeGaugeMetric "split_brain" (Float64.ofInt 1) ["myres"; "0"]]
        (Some tt) ∧
  Drbd.splitBrainEntry
    ["drbd-split-brain-detected-myres"; "drbd-split-brain-detected-myres-0"]
    "drbd-split-brain-detected-myres"
    = Drbd.mkRun [] (Some tt).
Proof.
  assert (Hin : "drbd-split-brain-detected-myres-0"
                  ∈ ["drbd-split-brain-detected-myres";
                     "drbd-split-brain-detected-myres-0"])
    by (apply list_elem_of_lookup; by exists 1%nat).
  split; [exact Hin|].
  destruct (split_brain_marker_samples _ Hin) as (H1 & _ & H2 & _).
  by split.
Defined.

End DrbdClaims.

(** ** Further properties of the Pacemaker pass *)
Module PacemakerPass.
Import Strings Strconv Collector Sources Spec Passes Pacemaker.
Import LibraryFacts LoopFacts PacemakerFacts ShapeFacts PacemakerClaims.

(** A pass over answering sources is its sections in program order. *)
Lemma Collect_sections (parseANSIC : string → error + Z) (env : Env)
    (crmMon : Crmmon.Root) (CIB : Cib.Root) (out : list Metric) :
  crmMonParse env = inr crmMon → cibParse env = inr CIB →
  Collect parseANSIC env out →
  ∃ nodes ungrouped,
    recordNodes crmMon nodes ∧ recordUngroupedResources crmMon ungrouped ∧
    out = MakeGaugeMetric "stonith_enabled" (stonithEnabled crmMon) []
          :: nodes ++ ungrouped
          ++ recordFailCounts crmMon
          ++ recordMigrationThresholds crmMon
          ++ recordResourceAgentsChanges parseANSIC crmMon
          ++ recordConstraints CIB.
Proof.
  intros Hcrm Hcib [err Herr|crmMon' err _ Herr|crmMon' CIB' nodes ungrouped
                     Hcrm' Hcib' Hnodes Hungrouped]; try congruence.
  assert (crmMon' = crmMon) as -> by congruence.
  assert (CIB' = CIB) as -> by congruence.
  by exists nodes, ungrouped.
Qed.

Lemma recordNodes_named (crmMon : Crmmon.Root) (out : list Metric) :
  recordNodes crmMon out →
  Forall (λ m, metricName m = "nodes" ∨ metricName m = "resources") out.
Proof.
  intros Hrun. eapply forEach_Forall; [|exact Hrun]. apply recordNode_named.
Qed.

Lemma recordUngroupedResources_named (crmMon : Crmmon.Root)
    (out : list Metric) :
  recordUngroupedResources crmMon out →
  Forall (λ m, metricName m = "resources") out.
Proof.
  intros Hrun. eapply forEach_Forall; [|exact Hrun].
  intros r o Hr. exact (recordResource_named _ _ _ Hr).
Qed.

Lemma samplesOf_cons (name : string) (m : Metric) (l : list Metric) :
  samplesOf name (m :: l) = samplesOf name [m] ++ samplesOf name l.
Proof. exact (samplesOf_app name [m] l). Qed.

(** The samples of a metric other than [nodes] and [resources] come from
    the sections after the status loops. *)
Lemma Collect_samplesOf (parseANSIC : string → error + Z) (env : Env)
    (crmMon : Crmmon.Root) (CIB : Cib.Root) (out : list Metric)
    (name : string) :
  crmMonParse env = inr crmMon → cibParse env = inr CIB →
  Collect parseANSIC env out →
  name ≠ "nodes" → name ≠ "resources" →
  samplesOf name out =
    samplesOf name [MakeGaugeMetric "stonith_enabled" (stonithEnabled crmMon) []]
    ++ samplesOf name (recordFailCounts crmMon)
    ++ samplesOf name (recordMigrationThresholds crmMon)
    ++ samplesOf name (recordResourceAgentsChanges parseANSIC crmMon)
    ++ samplesOf name (recordConstraints CIB).
Proof.
  intros Hcrm Hcib Hrun Hn Hr.
  destruct (Collect_sections _ _ _ _ _ Hcrm Hcib Hrun)
    as (nodes & ungrouped & Hnodes & Hungrouped & ->).
  rewrite samplesOf_cons, !samplesOf_app.
  rewrite (samplesOf_none name nodes), (samplesOf_none name ungrouped);
    [reflexivity| |].
  - eapply Forall_impl; [exact (recordUngroupedResources_named _ _ Hungrouped)|].
    intros m ->. cbv beta. congruence.
  - eapply Forall_impl; [exact (recordNodes_named _ _ Hnodes)|].
    intros m [-> | ->]; cbv beta; congruence.
Qed.

(** X1. A pass sends nothing exactly when one of its two sources failed. *)
Theorem empty_pass_means_failure (parseANSIC : string → error + Z)
    (env : Env) (out : list Metric) :
  Collect parseANSIC env out →
  (out = [] ↔ clusterSourceFails env).
Proof.
  intros [err Herr|crmMon err Hcrm Herr|crmMon CIB nodes ungrouped
           Hcrm Hcib Hnodes Hungrouped].
  - split; [|reflexivity]. intros _. left. by exists err.
  - split; [|reflexivity]. intros _. right. by exists err.
  - split; [discriminate|].
    intros [(err & Herr)|(err & Herr)]; congruence.
Qed.

Lemma empty_pass_means_failure_witness :
  Collect Examples.clock Examples.cibDown
    (collectInOrder Examples.clock Examples.cibDown) ∧
  (collectInOrder Examples.clock Examples.cibDown = [] ↔
   clusterSourceFails Examples.cibDown).
Proof.
  split; [apply Collect_inOrder|].
  apply (empty_pass_means_failure Examples.clock), Collect_inOrder.
Defined.

Lemma forEach_perm {A : Type} (body : A → list Metric → Prop) (l : list A)
    (out out' : list Metric) :
  (∀ x o o', body x o → body x o' → o ≡ₚ o') →
  forEach body l out → forEach body l out' → out ≡ₚ out'.
Proof.
  intros Hbody Hrun. revert out'.
  induction Hrun as [|x xs o os Hx _ IH]; intros out' Hrun'.
  - by inversion Hrun'.
  - inversion Hrun' as [|? ? o' os' Hx' Hxs']; subst.
    by rewrite (Hbody _ _ _ Hx Hx'), (IH _ Hxs').
Qed.

Lemma recordResource_perm (resource : Crmmon.Resource) (nodeName : string)
    (out out' : list Metric) :
  recordResource resource nodeName out → recordResource resource nodeName out' →
  out ≡ₚ out'.
Proof.
  intros [order Horder] [order' Horder']. unfold rangeOrder in *.
  rewrite !resourceStatusLoop_map.
  apply Permutation_map, trueFlags_perm. by rewrite Horder, Horder'.
Qed.

Lemma recordNode_perm (node : Crmmon.Node) (out out' : list Metric) :
  recordNode node out → recordNode node out' → out ≡ₚ out'.
Proof.
  intros [order rout Horder Hres] [order' rout' Horder' Hres'].
  unfold rangeOrder in *. rewrite !nodeStatusLoop_map.
  apply Permutation_app.
  - apply Permutation_map, trueFlags_perm. by rewrite Horder, Horder'.
  - eapply forEach_perm; [|exact Hres|exact Hres'].
    intros r o o'. apply recordResource_perm.
Qed.

(** X2. The order in which the status maps are visited changes the order of
    the samples only: two runs of a pass on the same answers send
    rearrangements of the same samples. *)
Theorem runs_are_rearrangements (parseANSIC : string → error + Z)
    (env : Env) (out out' : list Metric) :
  Collect parseANSIC env out → Collect parseANSIC env out' →
  out ≡ₚ out' ∧ length out = length out' ∧
  out ≡ₚ collectInOrder parseANSIC env.
Proof.
  assert (Hperm : ∀ o o', Collect parseANSIC env o → Collect parseANSIC env o' →
                          o ≡ₚ o').
  { intros o o' Hrun Hrun'.
    destruct Hrun as [err Herr|crmMon err Hcrm Herr|crmMon CIB nodes ungrouped
                       Hcrm Hcib Hnodes Hungrouped];
      destruct Hrun' as [err' Herr'|crmMon' err' Hcrm' Herr'|crmMon' CIB' nodes'
                          ungrouped' Hcrm' Hcib' Hnodes' Hungrouped'];
      try congruence; try reflexivity.
    assert (crmMon' = crmMon) as -> by congruence.
    assert (CIB' = CIB) as -> by congruence.
    apply Permutation_cons; [reflexivity|].
    apply Permutation_app; [|apply Permutation_app; [|reflexivity]].
    - eapply forEach_perm; [|exact Hnodes|exact Hnodes'].
      intros node. apply recordNode_perm.
    - eapply forEach_perm; [|exact Hungrouped|exact Hungrouped'].
      intros r. apply recordResource_perm. }
  intros Hrun Hrun'. split_and!.
  - by apply Hperm.
  - by rewrite (Hperm _ _ Hrun Hrun').
  - apply Hperm; [exact Hrun|apply Collect_inOrder].
Qed.

Lemma runs_are_rearrangements_witness :
  Collect Examples.clock Examples.healthy
    (collectInOrder Examples.clock Examples.healthy) ∧
  length (collectInOrder Examples.clock Examples.healthy)
    = length (collectInOrder Examples.clock Examples.healthy).
Proof.
  split; [apply Collect_inOrder|].
  apply (runs_are_rearrangements Examples.clock Examples.healthy);
    apply Collect_inOrder.
Defined.

(** X3. A pass over answering sources begins with the one [stonith_enabled]
    sample it sends, a gauge without labels worth 1 when stonith is enabled
    and 0 when it is not. *)
Theorem stonith_enabled_sample (parseANSIC : string → error + Z) (env : Env)
    (crmMon : Crmmon.Root) (CIB : Cib.Root) (out : list Metric) :
  crmMonParse env = inr crmMon → cibParse env = inr CIB →
  Collect parseANSIC env out →
  ∃ v, head out = Some (MakeGaugeMetric "stonith_enabled" v []) ∧
       samplesOf "stonith_enabled" out
         = [MakeGaugeMetric "stonith_enabled" v []] ∧
       Float64.denotes v (if Crmmon.StonithEnabled crmMon then 1 else 0).
Proof.
  intros Hcrm Hcib Hrun. exists (stonithEnabled crmMon). split_and!.
  - destruct (Collect_sections _ _ _ _ _ Hcrm Hcib Hrun)
      as (nodes & ungrouped & _ & _ & ->). reflexivity.
  - rewrite (Collect_samplesOf _ _ _ _ _ _ Hcrm Hcib Hrun) by discriminate.
    rewrite (samplesOf_other "stonith_enabled" "fail_count" _
               ltac:(discriminate) (recordFailCounts_named crmMon)).
    rewrite (samplesOf_other "stonith_enabled" "migration_threshold" _
               ltac:(discriminate) (recordMigrationThresholds_named crmMon)).
    rewrite (samplesOf_other "stonith_enabled" "config_last_change" _
               ltac:(discriminate)
               (recordResourceAgentsChanges_named parseANSIC crmMon)).
    rewrite (samplesOf_other "stonith_enabled" "location_constraints" _
               ltac:(discriminate) (recordConstraints_named CIB)).
    reflexivity.
  - unfold stonithEnabled. destruct (Crmmon.StonithEnabled crmMon); by vm_compute.
Qed.

Lemma stonith_enabled_sample_witness :
  Collect Examples.clock Examples.healthy
    (collectInOrder Examples.clock Examples.healthy) ∧
  ∃ v, head (collectInOrder Examples.clock Examples.healthy)
         = Some (MakeGaugeMetric "stonith_enabled" v []) ∧
       samplesOf "stonith_enabled"
         (collectInOrder Examples.clock Examples.healthy)
         = [MakeGaugeMetric "stonith_enabled" v []] ∧
       Float64.denotes v 1.
Proof.
  split; [apply Collect_inOrder|].
  apply (stonith_enabled_sample Examples.clock Examples.healthy Examples.crmMon
           Examples.cib); [reflexivity|reflexivity|apply Collect_inOrder].
Defined.

Lemma recordMigrationThresholds_ok (crmMon : Crmmon.Root) :
  Forall2 thresholdSampleOk (historyPairs crmMon)
    (recordMigrationThresholds crmMon).
Proof.
  unfold historyPairs, recordMigrationThresholds.
  induction (Crmmon.NodeHistory crmMon) as [|node nodes IH]; [constructor|].
  cbn [flat_map]. apply Forall2_app; [|exact IH].
  induction (Crmmon.ResourceHistories node) as [|rh rhs IHr]; [constructor|].
  cbn [flat_map List.map app]. constructor; [by split_and!|exact IHr].
Qed.

Lemma history_labels (crmMon : Crmmon.Root) :
  List.map labelValues (recordMigrationThresholds crmMon)
    = List.map labelValues (recordFailCounts crmMon).
Proof.
  unfold recordFailCounts, recordMigrationThresholds.
  induction (Crmmon.NodeHistory crmMon) as [|node nodes IH]; [reflexivity|].
  cbn [flat_map]. rewrite !List.map_app, IH. f_equal.
  induction (Crmmon.ResourceHistories node) as [|rh rhs IHr]; [reflexivity|].
  cbn [flat_map List.map app]. by rewrite IHr.
Qed.

Lemma Collect_migration_thresholds (parseANSIC : string → error + Z)
    (env : Env) (crmMon : Crmmon.Root) (CIB : Cib.Root) (out : list Metric) :
  crmMonParse env = inr crmMon → cibParse env = inr CIB →
  Collect parseANSIC env out →
  samplesOf "migration_threshold" out = recordMigrationThresholds crmMon.
Proof.
  intros Hcrm Hcib Hrun.
  rewrite (Collect_samplesOf _ _ _ _ _ _ Hcrm Hcib Hrun) by discriminate.
  rewrite (samplesOf_other "migration_threshold" "fail_count" _
             ltac:(discriminate) (recordFailCounts_named crmMon)).
  rewrite (samplesOf_same _ _ (recordMigrationThresholds_named crmMon)).
  rewrite (samplesOf_other "migration_threshold" "config_last_change" _
             ltac:(discriminate)
             (recordResourceAgentsChanges_named parseANSIC crmMon)).
  rewrite (samplesOf_other "migration_threshold" "location_constraints" _
             ltac:(discriminate) (recordConstraints_named CIB)).
  cbn [samplesOf List.filter app]. by rewrite app_nil_r.
Qed.

(** X4. For every (node, resource) pair of the node history a pass sends
    exactly one [migration_threshold] gauge, labelled with the pair, whose
    value is the threshold as it is; these samples carry, one for one, the
    labels of the [fail_count] samples. *)
Theorem migration_threshold_samples (parseANSIC : string → error + Z)
    (env : Env) (crmMon : Crmmon.Root) (CIB : Cib.Root) (out : list Metric) :
  crmMonParse env = inr crmMon → cibParse env = inr CIB →
  Collect parseANSIC env out →
  Forall2 thresholdSampleOk (historyPairs crmMon)
    (samplesOf "migration_threshold" out) ∧
  List.map labelValues (samplesOf "migration_threshold" out)
    = List.map labelValues (samplesOf "fail_count" out).
Proof.
  intros Hcrm Hcib Hrun.
  rewrite (Collect_migration_thresholds _ _ _ _ _ Hcrm Hcib Hrun).
  rewrite (Collect_fail_counts _ _ _ _ _ Hcrm Hcib Hrun).
  split; [apply recordMigrationThresholds_ok|apply history_labels].
Qed.

Lemma migration_threshold_samples_witness :
  Collect Examples.clock Examples.healthy
    (collectInOrder Examples.clock Examples.healthy) ∧
  Forall2 thresholdSampleOk (historyPairs Examples.crmMon)
    (samplesOf "migration_threshold"
       (collectInOrder Examples.clock Examples.healthy)).
Proof.
  split; [apply Collect_inOrder|].
  apply (migration_threshold_samples Examples.clock Examples.healthy
           Examples.crmMon Examples.cib);
    [reflexivity|reflexivity|apply Collect_inOrder].
Defined.

Lemma PacemakerSample_counter (m : Metric) :
  PacemakerSample m →
  (metricType m = CounterValue ↔ metricName m = "config_last_change").
Proof. intros []; split; try discriminate; reflexivity. Qed.

(** X5. A time stamp of the last change that does not parse costs the pass
    its [config_last_change] sample and nothing else: the constraints after
    it are still sent; one that parses gives exactly one sample, a counter
    worth the seconds since the epoch, and no other sample of the pass is a
    counter. *)
Theorem config_last_change_sample (parseANSIC : string → error + Z)
    (env : Env) (crmMon : Crmmon.Root) (CIB : Cib.Root) (out : list Metric) :
  crmMonParse env = inr crmMon → cibParse env = inr CIB →
  Collect parseANSIC env out →
  (∀ err, parseANSIC (Crmmon.LastChangeTime crmMon) = inl err →
     samplesOf "config_last_change" out = []) ∧
  (∀ unix, parseANSIC (Crmmon.LastChangeTime crmMon) = inr unix →
     samplesOf "config_last_change" out
       = [MakeCounterMetric "config_last_change" (Float64.ofInt unix) []]) ∧
  Forall (λ m, metricType m = CounterValue ↔
               metricName m = "config_last_change") out ∧
  samplesOf "location_constraints" out = recordConstraints CIB.
Proof.
  intros Hcrm Hcib Hrun.
  assert (Hsec : samplesOf "config_last_change" out =
                 recordResourceAgentsChanges parseANSIC crmMon).
  { rewrite (Collect_samplesOf _ _ _ _ _ _ Hcrm Hcib Hrun) by discriminate.
    rewrite (samplesOf_other "config_last_change" "fail_count" _
               ltac:(discriminate) (recordFailCounts_named crmMon)).
    rewrite (samplesOf_other "config_last_change" "migration_threshold" _
               ltac:(discriminate) (recordMigrationThresholds_named crmMon)).
    rewrite (samplesOf_same _ _
               (recordResourceAgentsChanges_named parseANSIC crmMon)).
    rewrite (samplesOf_other "config_last_change" "location_constraints" _
               ltac:(discriminate) (recordConstraints_named CIB)).
    cbn [samplesOf List.filter app]. by rewrite app_nil_r. }
  split_and!.
  - intros err Herr. rewrite Hsec. unfold recordResourceAgentsChanges.
    by rewrite Herr.
  - intros unix Hunix. rewrite Hsec. unfold recordResourceAgentsChanges.
    by rewrite Hunix.
  - eapply Forall_impl; [exact (pacemaker_Collect_shape _ _ _ Hrun)|].
    apply PacemakerSample_counter.
  - exact (Collect_constraints _ _ _ _ _ Hcrm Hcib Hrun).
Qed.

Lemma config_last_change_sample_witness :
  Collect Examples.clock Examples.healthy
    (collectInOrder Examples.clock Examples.healthy) ∧
  samplesOf "config_last_change"
    (collectInOrder Examples.clock Examples.healthy)
    = [MakeCounterMetric "config_last_change" (Float64.ofInt 1571399302) []].
Proof.
  split; [apply Collect_inOrder|].
  destruct (config_last_change_sample Examples.clock Examples.healthy
              Examples.crmMon Examples.cib _ eq_refl eq_refl
              (Collect_inOrder _ _)) as (_ & Hok & _).
  by apply Hok.
Defined.

Lemma nodeType_known (node : Crmmon.Node) : nodeType node ∈ nodeTypes.
Proof.
  unfold nodeType, nodeTypes.
  destruct (String.eqb_spec (Crmmon.Type_ node) "member") as [->|_];
    [cbn [orb]; rewrite !elem_of_cons; tauto|].
  destruct (String.eqb_spec (Crmmon.Type_ node) "ping") as [->|_];
    [cbn [orb]; rewrite !elem_of_cons; tauto|].
  destruct (String.eqb_spec (Crmmon.Type_ node) "remote") as [->|_];
    cbn [orb]; rewrite !elem_of_cons; tauto.
Qed.

Lemma order_keys (entries order : list (string * bool)) (key : string) :
  order ≡ₚ entries → key ∈ trueFlags order → key ∈ entries.*1.
Proof.
  intros Hperm Hkey. rewrite <- Hperm. by apply trueFlags_keys.
Qed.

Lemma other_sample_vocabulary (m : Metric) :
  metricName m ≠ "nodes" → metricName m ≠ "resources" → vocabularyOk m.
Proof. intros Hn Hr. split; intros Hm; congruence. Qed.

Lemma recordResource_vocabulary (resource : Crmmon.Resource)
    (nodeName : string) (out : list Metric) :
  recordResource resource nodeName out → Forall vocabularyOk out.
Proof.
  intros [order Horder].
  apply (rangeOrder_literal _ _ (resourceFlags_keys resource)) in Horder.
  rewrite resourceStatusLoop_map. apply Forall_map, Forall_forall.
  intros status Hstatus. split; [discriminate|]. intros _.
  exists (FormatBool (Crmmon.Managed resource)), status. split_and!.
  - reflexivity.
  - destruct (Crmmon.Managed resource); cbn; rewrite !elem_of_cons; tauto.
  - reflexivity.
  - exact (order_keys _ _ _ Horder Hstatus).
Qed.

Lemma recordNode_vocabulary (node : Crmmon.Node) (out : list Metric) :
  recordNode node out → Forall vocabularyOk out.
Proof.
  intros [order rout Horder Hres].
  apply (rangeOrder_literal _ _ (nodeFlags_keys node)) in Horder.
  apply Forall_app. split.
  - rewrite nodeStatusLoop_map. apply Forall_map, Forall_forall.
    intros status Hstatus. split; [|discriminate]. intros _.
    exists (nodeType node), status. split_and!.
    + reflexivity.
    + apply nodeType_known.
    + reflexivity.
    + exact (order_keys _ _ _ Horder Hstatus).
  - eapply forEach_Forall; [|exact Hres].
    intros r o Hr. exact (recordResource_vocabulary _ _ _ Hr).
Qed.

Lemma named_vocabulary (name : string) (l : list Metric) :
  name ≠ "nodes" → name ≠ "resources" →
  Forall (λ m, metricName m = name) l → Forall vocabularyOk l.
Proof.
  intros Hn Hr Hall. eapply Forall_impl; [exact Hall|].
  intros m Hm. apply other_sample_vocabulary; congruence.
Qed.

(** X6. Whatever the snapshot holds, the type label of a [nodes] sample is
    one of member, ping, remote and unknown, and its status label one of the
    nine flag names; the managed label of a [resources] sample is true or
    false, and its status label one of the five flag names or empty. *)
Theorem label_vocabularies (parseANSIC : string → error + Z) (env : Env)
    (out : list Metric) :
  Collect parseANSIC env out → Forall vocabularyOk out.
Proof.
  intros [err _|crmMon err _ _|crmMon CIB nodes ungrouped _ _ Hnodes Hungrouped];
    [constructor|constructor|].
  constructor; [by apply other_sample_vocabulary|].
  rewrite !Forall_app. split_and!.
  - eapply forEach_Forall; [|exact Hnodes]. apply recordNode_vocabulary.
  - eapply forEach_Forall; [|exact Hungrouped].
    intros r o Hr. exact (recordResource_vocabulary _ _ _ Hr).
  - exact (named_vocabulary "fail_count" _ ltac:(discriminate)
             ltac:(discriminate) (recordFailCounts_named crmMon)).
  - exact (named_vocabulary "migration_threshold" _ ltac:(discriminate)
             ltac:(discriminate) (recordMigrationThresholds_named crmMon)).
  - exact (named_vocabulary "config_last_change" _ ltac:(discriminate)
             ltac:(discriminate) (recordResourceAgentsChanges_named parseANSIC crmMon)).
  - exact (named_vocabulary "location_constraints" _ ltac:(discriminate)
             ltac:(discriminate) (recordConstraints_named CIB)).
Qed.

Lemma label_vocabularies_witness :
  Collect Examples.clock Examples.healthy
    (collectInOrder Examples.clock Examples.healthy) ∧
  Forall vocabularyOk (collectInOrder Examples.clock Examples.healthy).
Proof.
  split; [apply Collect_inOrder|].
  apply (label_vocabularies Examples.clock Examples.healthy),
    Collect_inOrder.
Defined.

End PacemakerPass.

(** ** Scores written in decimal *)
Module ScoreRoundTrip.
Import Strings Strconv Collector Sources Spec Passes Pacemaker.
Import LibraryFacts PacemakerClaims.

(** The digits [strconv.Itoa] writes for a positive number, read back. *)
Lemma digits_of_uint_acc (d : Decimal.uint) :
  ∀ acc, allDigits (NilEmpty.string_of_uint d) = true ∧
         digitsValue (Z.pos acc) (NilEmpty.string_of_uint d)
           = Z.pos (Pos.of_uint_acc d acc).
Proof.
  induction d as [|d IH|d IH|d IH|d IH|d IH|d IH|d IH|d IH|d IH|d IH];
    intros acc; [by split|..];
    cbn [NilEmpty.string_of_uint allDigits digitsValue Pos.of_uint_acc];
    (split; [exact (proj1 (IH acc))|]);
    match goal with
    | |- digitsValue ?n _ = Z.pos (Pos.of_uint_acc _ ?p) =>
        replace n with (Z.pos p) by (vm_compute Strconv.byteVal; lia)
    end;
    apply IH.
Qed.

Lemma digits_of_uint (d : Decimal.uint) :
  allDigits (NilEmpty.string_of_uint d) = true ∧
  digitsValue 0 (NilEmpty.string_of_uint d) = Z.of_N (Pos.of_uint d).
Proof.
  induction d as [|d IH|d IH|d IH|d IH|d IH|d IH|d IH|d IH|d IH|d IH];
    [by split|exact IH|..];
    cbn [NilEmpty.string_of_uint allDigits digitsValue Pos.of_uint Z.of_N];
    (split; [exact (proj1 (digits_of_uint_acc d 1))|]);
    match goal with
    | |- digitsValue ?n _ = Z.pos (Pos.of_uint_acc _ ?p) =>
        change n with (Z.pos p)
    end;
    apply digits_of_uint_acc.
Qed.

Lemma digit_not_sign (c : ascii) : isDigit c = true → isSign c = false.
Proof. destruct c as [[] [] [] [] [] [] [] []]; by vm_compute. Qed.

(** The rendering of a positive number: digits only, at least one, and
    they write the number. *)
Lemma Itoa_positive (p : positive) :
  ∃ c s, Itoa (Z.pos p) = String c s ∧ isDigit c = true ∧
         allDigits (String c s) = true ∧
         digitsValue 0 (String c s) = Z.pos p ∧
         Itoa (Z.neg p) = String "-" (String c s).
Proof.
  unfold Itoa. cbn [Z.to_int NilZero.string_of_int].
  pose proof (DecimalPos.Unsigned.to_uint_nonnil p) as Hnil.
  pose proof (DecimalPos.Unsigned.of_to p) as Hback.
  destruct (digits_of_uint (Pos.to_uint p)) as [Hall Hval].
  rewrite Hback in Hval. cbn [Z.of_N] in Hval.
  unfold NilZero.string_of_uint.
  destruct (Pos.to_uint p) as [|d|d|d|d|d|d|d|d|d|d] eqn:Hd; [done|..];
    cbn [NilEmpty.string_of_uint] in *; eexists _, _;
    (split_and!; [reflexivity|reflexivity|exact Hall|exact Hval|reflexivity]).
Qed.

(** What [strconv.Itoa] writes is a well-formed signed integer, and it
    writes the number rendered. *)
Lemma Itoa_signedInteger (z : Z) : signedInteger (Itoa z) = Some z.
Proof.
  destruct z as [|p|p].
  - reflexivity.
  - destruct (Itoa_positive p) as (c & s & -> & Hc & Hall & Hval & _).
    unfold signedInteger. cbn [unsignedPart negative].
    rewrite (digit_not_sign c Hc), Hall, Hval.
    replace (Ascii.eqb c "-") with false; [reflexivity|].
    pose proof (digit_not_sign c Hc) as Hs. unfold isSign in Hs.
    by apply orb_false_iff in Hs as [-> _].
  - destruct (Itoa_positive p) as (c & s & _ & Hc & Hall & Hval & ->).
    unfold signedInteger.
    change (unsignedPart (String "-" (String c s))) with (String c s).
    change (negative (String "-" (String c s))) with true.
    by rewrite Hall, Hval.
Qed.

(** X7. Reading back what [strconv.Itoa] writes: for every 64-bit integer,
    [strconv.Atoi] accepts the rendering without error and returns the
    integer, and the rendering, taken as a constraint score, is worth the
    integer as a float. *)
Theorem score_of_decimal_rendering (z : Z) :
  - 2 ^ 63 <= z < 2 ^ 63 →
  Atoi (Itoa z) = (z, None) ∧ constraintScore (Itoa z) = Float64.ofInt z.
Proof.
  intros Hfit. pose proof (Itoa_signedInteger z) as Hz.
  destruct (constraintScore_decoded (Itoa z)) as (_ & _ & Hscore & _).
  split; [|by apply Hscore].
  destruct (signedInteger_digits _ _ Hz) as [Hall Hval].
  pose proof (digitsValue_nonneg _ Hall) as Hnn.
  rewrite Atoi_spec. unfold atoiResult.
  rewrite leadingDigits_allDigits, Hz by assumption.
  replace (maxUint64 <? digitsValue 0 (unsignedPart (Itoa z))) with false
    by (symmetry; apply Z.ltb_ge; unfold maxUint64;
        destruct (negative (Itoa z)); lia).
  replace ((z <? - 2 ^ 63) || (2 ^ 63 <=? z)) with false; [reflexivity|].
  symmetry. apply orb_false_iff. rewrite Z.ltb_ge, Z.leb_gt. lia.
Qed.

Lemma score_of_decimal_rendering_witness :
  - 2 ^ 63 <= -150 < 2 ^ 63 ∧
  Atoi (Itoa (-150)) = (-150, None) ∧
  constraintScore (Itoa (-150)) = Float64.ofInt (-150).
Proof.
  assert (Hfit : - 2 ^ 63 <= -150 < 2 ^ 63) by lia.
  split; [exact Hfit|]. exact (score_of_decimal_rendering (-150) Hfit).
Defined.

End ScoreRoundTrip.

(** ** Splitting the names of the marker files *)
Module SplitBrainFacts.
Import Strings Strconv Collector Sources Spec Passes Drbd.
Import LibraryFacts LoopFacts DrbdFacts ShapeFacts.

Lemma prefix_cons_inv (a b : ascii) (p s : string) :
  String.prefix (String a p) (String b s) = true →
  a = b ∧ String.prefix p s = true.
Proof. cbn [String.prefix]. by destruct (ascii_dec a b). Qed.

Lemma hyphens_tail (c : ascii) (s : string) :
  (hyphens s <= hyphens (String c s))%nat.
Proof. cbn [hyphens]. destruct (Ascii.eqb c "-"); lia. Qed.

(** A string that begins with the marker holds its four hyphens. *)
Lemma marker_hyphens (s : string) :
  String.prefix splitBrainMarker s = true → (4 <= hyphens s)%nat.
Proof.
  unfold splitBrainMarker. intros H.
  repeat (destruct s as [|? s]; [discriminate H|];
          apply prefix_cons_inv in H as [<- H]).
  cbn [hyphens Ascii.eqb Bool.eqb]. lia.
Qed.

Lemma occursIn_hyphens (s : string) :
  occursIn splitBrainMarker s = true → (4 <= hyphens s)%nat.
Proof.
  induction s as [|c s IH]; [discriminate|].
  cbn [occursIn]. intros [H|H]%orb_true_iff.
  - by apply marker_hyphens.
  - pose proof (hyphens_tail c s). specialize (IH H). lia.
Qed.

Lemma noHyphen_hyphens (s : string) : noHyphen s = true → hyphens s = O.
Proof.
  induction s as [|c s IH]; [done|]. cbn [noHyphen hyphens].
  destruct (Ascii.eqb c "-"); [discriminate|]. exact IH.
Qed.

Lemma append_cons (c : ascii) (s t : string) :
  String c s +:+ t = String c (s +:+ t).
Proof. reflexivity. Qed.

Lemma append_nil (t : string) : EmptyString +:+ t = t.
Proof. reflexivity. Qed.

Lemma append_empty_r (s : string) : s +:+ EmptyString = s.
Proof.
  induction s as [|c s IH]; [reflexivity|]. by rewrite append_cons, IH.
Qed.

Lemma append_char (cur : string) (c : ascii) (s : string) :
  (cur +:+ String c EmptyString) +:+ s = cur +:+ String c s.
Proof.
  induction cur as [|a cur IH]; [reflexivity|]. by rewrite !append_cons, IH.
Qed.

Lemma hyphens_app (s t : string) :
  hyphens (s +:+ t) = (hyphens s + hyphens t)%nat.
Proof.
  induction s as [|c s IH]; [reflexivity|].
  rewrite append_cons. cbn [hyphens].
  rewrite IH. destruct (Ascii.eqb c "-"); lia.
Qed.

(** The scan of a string in which the separator does not occur yields the
    string, after what was read before. *)
Lemma splitScan_absent (sep : string) (s : string) :
  ∀ cur, occursIn sep s = false → splitScan sep O cur s = [cur +:+ s].
Proof.
  induction s as [|c s IH]; intros cur.
  - intros _. cbn [splitScan]. by rewrite append_empty_r.
  - cbn [occursIn splitScan]. intros [Hp Hs]%orb_false_iff. rewrite Hp.
    by rewrite (IH _ Hs), append_char.
Qed.

(** [Split] yields a single piece exactly when the separator does not
    occur. *)
Lemma splitScan_single (sep : string) (s : string) :
  ∀ cur, splitScan sep O cur s !! 1%nat = None ↔ occursIn sep s = false.
Proof.
  induction s as [|c s IH]; intros cur; [done|].
  cbn [occursIn splitScan].
  destruct (String.prefix sep (String c s)) eqn:Hp; cbn [orb].
  - pose proof (splitScan_nonempty sep s (Nat.pred (String.length sep))
                  EmptyString) as Hne.
    destruct (splitScan sep _ EmptyString s); [done|]. by split.
  - apply IH.
Qed.

Lemma Split_single (f : string) :
  Split f splitBrainMarker !! 1%nat = None ↔
  occursIn splitBrainMarker f = false.
Proof. apply splitScan_single. Qed.

Lemma hyphen_prefix (c : ascii) (s : string) :
  String.prefix "-" (String c s) = Ascii.eqb c "-".
Proof.
  cbn [String.prefix]. destruct (ascii_dec "-" c) as [<-|Hne].
  - by destruct s.
  - symmetry. apply Ascii.eqb_neq. congruence.
Qed.

Lemma noHyphen_absent (s : string) : noHyphen s = true → occursIn "-" s = false.
Proof.
  induction s as [|c s IH]; [done|]. cbn [noHyphen occursIn].
  rewrite hyphen_prefix. destruct (Ascii.eqb c "-"); [discriminate|].
  exact IH.
Qed.

(** Splitting at the hyphen a string with one hyphen gives its two sides. *)
Lemma splitScan_one_hyphen (resource volume : string) :
  ∀ cur, noHyphen resource = true → noHyphen volume = true →
    splitScan "-" O cur (resource +:+ String "-" volume)
      = [cur +:+ resource; volume].
Proof.
  induction resource as [|c r IH]; intros cur Hr Hv.
  - rewrite append_nil. cbn [splitScan]. rewrite hyphen_prefix.
    cbn [Ascii.eqb Bool.eqb String.length Nat.pred].
    rewrite (splitScan_absent "-" volume EmptyString (noHyphen_absent _ Hv)).
    by rewrite append_empty_r, append_nil.
  - cbn [noHyphen] in Hr. apply andb_true_iff in Hr as [Hc Hr].
    rewrite append_cons. cbn [splitScan]. rewrite hyphen_prefix.
    destruct (Ascii.eqb c "-"); [discriminate|].
    rewrite (IH _ Hr Hv). by rewrite append_char.
Qed.

(** The pieces of a split at the hyphen hold no hyphen. *)
Lemma splitScan_pieces_plain (s : string) :
  ∀ cur, noHyphen cur = true →
         Forall (λ piece, noHyphen piece = true) (splitScan "-" O cur s).
Proof.
  induction s as [|c s IH]; intros cur Hcur; [by repeat constructor|].
  cbn [splitScan]. rewrite hyphen_prefix.
  destruct (Ascii.eqb c "-") eqn:Hc.
  - constructor; [exact Hcur|]. by apply IH.
  - apply IH. clear IH. induction cur as [|a cur IHc].
    + rewrite append_nil. cbn [noHyphen]. by rewrite Hc.
    + rewrite append_cons. cbn [noHyphen] in *.
      apply andb_true_iff in Hcur as [-> Hcur]. by apply IHc.
Qed.

Lemma prefix_append (s t : string) : String.prefix s (s +:+ t) = true.
Proof.
  induction s as [|a s IH]; [by destruct t|].
  rewrite append_cons. cbn [String.prefix].
  by destruct (ascii_dec a a).
Qed.

Lemma splitScan_skip (sep p rest : string) :
  ∀ cur, splitScan sep (String.length p) cur (p +:+ rest)
         = splitScan sep O cur rest.
Proof.
  induction p as [|a p IH]; intros cur; [reflexivity|].
  rewrite append_cons. cbn [String.length splitScan]. apply IH.
Qed.

(** A string that begins with the separator splits into the empty piece
    read so far and the pieces of the rest. *)
Lemma splitScan_at_separator (a : ascii) (p rest cur : string) :
  splitScan (String a p) O cur (String a p +:+ rest)
    = cur :: splitScan (String a p) O EmptyString rest.
Proof.
  pose proof (prefix_append (String a p) rest) as Hpre.
  rewrite append_cons in *. cbn [splitScan]. rewrite Hpre.
  cbn [String.length Nat.pred]. by rewrite splitScan_skip.
Qed.

End SplitBrainFacts.

(** ** Further properties of the split-brain projection *)
Module SplitBrainPass.
Import Strings Strconv Collector Sources Spec Passes Drbd.
Import LibraryFacts LoopFacts DrbdFacts ShapeFacts SplitBrainFacts.

Lemma markerName_marked (resource volume : string) :
  HasPrefix (markerName resource volume) splitBrainMarker = true.
Proof. apply prefix_append. Qed.

(** The suffix the projection takes from a well-formed marker name. *)
Lemma markerName_suffix (resource volume : string) :
  noHyphen resource = true → noHyphen volume = true →
  Split (markerName resource volume) splitBrainMarker
    = [EmptyString; resource +:+ String "-" volume].
Proof.
  intros Hr Hv.
  assert (Habsent : occursIn splitBrainMarker (resource +:+ String "-" volume)
                    = false).
  { destruct (occursIn _ _) eqn:Hocc; [|reflexivity].
    apply occursIn_hyphens in Hocc. rewrite hyphens_app in Hocc.
    cbn [hyphens Ascii.eqb Bool.eqb] in Hocc.
    rewrite (noHyphen_hyphens _ Hr), (noHyphen_hyphens _ Hv) in Hocc. lia. }
  unfold Split, markerName, splitBrainMarker in *.
  rewrite splitScan_at_separator.
  by rewrite (splitScan_absent _ _ EmptyString Habsent), append_nil.
Qed.

(** X8. In any directory that holds it, the marker file of a resource and a
    volume whose names hold no hyphen yields exactly one [split_brain]
    sample of value 1, labelled with that resource and that volume. *)
Theorem wellformed_marker_sample (files : list string)
    (resource volume : string) :
  noHyphen resource = true → noHyphen volume = true →
  markerName resource volume ∈ files →
  splitBrainEntry files (markerName resource volume)
    = mkRun [MakeGaugeMetric "split_brain" (Float64.ofInt 1)
               [resource; volume]] (Some tt).
Proof.
  intros Hr Hv Hin.
  rewrite splitBrainEntry_matched
    by (eapply Glob_matches; [exact Hin|apply markerName_marked]).
  rewrite (splitBrainSample_emits _ (resource +:+ String "-" volume)
             resource volume); [reflexivity| |].
  - by rewrite markerName_suffix.
  - unfold Split. by rewrite splitScan_one_hyphen, append_nil.
Qed.

Lemma wellformed_marker_sample_witness :
  noHyphen "r0" = true ∧ noHyphen "12" = true ∧
  markerName "r0" "12" ∈ ["README"; markerName "r0" "12"] ∧
  splitBrainEntry ["README"; markerName "r0" "12"] (markerName "r0" "12")
    = mkRun [MakeGaugeMetric "split_brain" (Float64.ofInt 1) ["r0"; "12"]]
        (Some tt).
Proof.
  assert (Hin : markerName "r0" "12" ∈ ["README"; markerName "r0" "12"])
    by (apply list_elem_of_lookup; by exists 1%nat).
  split_and!; [reflexivity|reflexivity|exact Hin|].
  exact (wellformed_marker_sample _ "r0" "12" eq_refl eq_refl Hin).
Defined.

Lemma splitBrainSample_plain (f : string) :
  Forall plainSplitBrainSample (emitted (splitBrainSample f)).
Proof.
  unfold splitBrainSample. apply bind_Forall; [apply index_Forall|].
  intros resAndVolume.
  destruct (Nat.eqb_spec (length (Split resAndVolume "-")) 2) as [Hlen|Hlen];
    [|constructor].
  cbn [negb].
  pose proof (splitScan_pieces_plain resAndVolume EmptyString eq_refl) as Hplain.
  change (splitScan "-" O EmptyString resAndVolume)
    with (Split resAndVolume "-") in Hplain.
  destruct (Split resAndVolume "-") as [|a [|b [|c l]]]; try discriminate Hlen.
  apply Forall_cons in Hplain as [Ha [Hb _]%Forall_cons].
  unfold index. cbn [lookup list_lookup]. rewrite !ret_bind.
  constructor; [|constructor]. by exists a, b.
Qed.

(** X9. Whatever the directory holds, every sample of the split-brain
    projection is a [split_brain] gauge of value 1 with two labels, neither
    of which holds a hyphen: a resource whose name holds a hyphen is never
    reported. *)
Theorem split_brain_labels_plain (files : list string) :
  Forall plainSplitBrainSample (emitted (recordDrbdSplitBrainMetric files)) ∧
  (∀ resource volume, noHyphen resource = false →
     MakeGaugeMetric "split_brain" (Float64.ofInt 1) [resource; volume]
       ∉ emitted (recordDrbdSplitBrainMetric files)).
Proof.
  assert (Hall : Forall plainSplitBrainSample
                   (emitted (recordDrbdSplitBrainMetric files))).
  { apply eachOf_Forall. intros f. unfold splitBrainEntry.
    destruct (Glob files); [constructor|apply splitBrainSample_plain]. }
  split; [exact Hall|].
  intros resource volume Hhyphen Hin.
  rewrite Forall_forall in Hall.
  destruct (Hall _ Hin) as (r & v & [= -> ->] & Hr & _). congruence.
Qed.

Lemma eachOf_panics_inv {A : Type} (l : list A) (body : A → Run unit) :
  returned (eachOf l body) = None → ∃ x, x ∈ l ∧ returned (body x) = None.
Proof.
  induction l as [|y l IH]; [discriminate|].
  cbn [eachOf]. rewrite bind_returned.
  destruct (returned (body y)) as [[]|] eqn:Hy.
  - intros (x & Hin & Hx)%IH. exists x. split; [by right|exact Hx].
  - intros _. exists y. split; [by left|exact Hy].
Qed.

(** X10. The split-brain projection panics exactly when the glob matches an
    entry of the directory and the name of some entry does not hold the
    marker text. *)
Theorem split_brain_panic_condition (files : list string) :
  returned (recordDrbdSplitBrainMetric files) = None ↔
  Glob files ≠ [] ∧ ∃ f, f ∈ files ∧ occursIn splitBrainMarker f = false.
Proof.
  split.
  - intros (f & Hin & Hf)%eachOf_panics_inv.
    unfold splitBrainEntry in Hf.
    destruct (Glob files) as [|g gs] eqn:Hglob; [discriminate Hf|].
    split; [done|]. exists f. split; [exact Hin|].
    apply Split_single.
    destruct (Split f splitBrainMarker !! 1%nat) as [suffix|] eqn:Hs;
      [|reflexivity].
    rewrite splitBrainSample_returns in Hf by (by eexists). discriminate Hf.
  - intros (Hglob & f & Hin & Hf%Split_single).
    apply (eachOf_panics _ _ f Hin).
    rewrite splitBrainEntry_matched by assumption.
    by rewrite splitBrainSample_panics.
Qed.

End SplitBrainPass.

(** ** Further properties of the DRBD pass *)
Module DrbdPass.
Import Strings Strconv Collector Sources Spec Passes Drbd.
Import LibraryFacts LoopFacts PacemakerFacts DrbdFacts ShapeFacts.
Import SplitBrainFacts SplitBrainPass.

(** The samples of a loop none of whose iterations panics are those of its
    iterations, in order. *)
Lemma eachOf_emitted {A : Type} (l : list A) (body : A → Run unit) :
  (∀ x, returned (body x) = Some tt) →
  emitted (eachOf l body) = flat_map (λ x, emitted (body x)) l.
Proof.
  intros Hbody. induction l as [|x l IH]; [reflexivity|].
  cbn [eachOf flat_map]. by rewrite bind_emitted, Hbody, IH.
Qed.

Lemma eachOf_always_returns {A : Type} (l : list A) (body : A → Run unit) :
  (∀ x, returned (body x) = Some tt) → returned (eachOf l body) = Some tt.
Proof. intros Hbody. apply eachOf_returns, Forall_forall. auto. Qed.

Lemma recordDevice_returns (resource : drbdStatus) (device : Device) :
  returned (recordDevice resource device) = Some tt.
Proof. unfold recordDevice. by destruct (Quorum device). Qed.

Lemma recordPeerDevice_returns (resource : drbdStatus) (conn : Connection)
    (peerDev : PeerDevice) :
  returned (recordPeerDevice resource conn peerDev) = Some tt.
Proof. reflexivity. Qed.

(** The samples of the connections of a resource. *)
Lemma connections_emitted (resource : drbdStatus) (conns : list Connection) :
  returned (eachOf conns (λ conn,
     if (length (PeerDevices conn) =? 0)%nat then ret tt
     else eachOf (PeerDevices conn) (recordPeerDevice resource conn)))
    = Some tt ∧
  emitted (eachOf conns (λ conn,
     if (length (PeerDevices conn) =? 0)%nat then ret tt
     else eachOf (PeerDevices conn) (recordPeerDevice resource conn)))
    = flat_map (λ conn,
        flat_map (λ peerDev, emitted (recordPeerDevice resource conn peerDev))
          (PeerDevices conn)) conns.
Proof.
  assert (Hret : ∀ conn, returned
            (if (length (PeerDevices conn) =? 0)%nat then ret tt
             else eachOf (PeerDevices conn) (recordPeerDevice resource conn))
            = Some tt).
  { intros conn. destruct (_ =? _)%nat; [reflexivity|].
    apply eachOf_always_returns, recordPeerDevice_returns. }
  split; [by apply eachOf_always_returns|].
  rewrite eachOf_emitted by exact Hret.
  apply flat_map_ext. intros conn.
  destruct (PeerDevices conn) as [|pd pds] eqn:Hpds; [reflexivity|].
  cbn [length Nat.eqb].
  apply eachOf_emitted, recordPeerDevice_returns.
Qed.

Lemma recordResource_returns (resource : drbdStatus) :
  returned (recordResource resource) = Some tt.
Proof.
  unfold recordResource. rewrite bind_returned.
  rewrite (eachOf_always_returns _ _ (recordDevice_returns resource)).
  cbn [mbind option_bind].
  destruct (_ =? _)%nat; [reflexivity|].
  apply connections_emitted.
Qed.

Lemma recordResource_emitted (resource : drbdStatus) :
  emitted (recordResource resource)
    = flat_map (λ device, emitted (recordDevice resource device))
        (Devices resource)
      ++ flat_map (λ conn,
           flat_map (λ peerDev, emitted (recordPeerDevice resource conn peerDev))
             (PeerDevices conn)) (Connections resource).
Proof.
  unfold recordResource. rewrite bind_emitted.
  rewrite (eachOf_always_returns _ _ (recordDevice_returns resource)).
  rewrite (eachOf_emitted _ _ (recordDevice_returns resource)). f_equal.
  destruct (Connections resource) as [|conn conns] eqn:Hconns; [reflexivity|].
  cbn [length Nat.eqb]. apply connections_emitted.
Qed.

(** X11. The loops over the resources, devices, connections and peer devices
    never panic: a DRBD pass panics exactly when its split-brain projection
    does. *)
Theorem drbd_pass_panics_with_split_brain
    (jsonUnmarshal : string → error + list drbdStatus) (env : Env) :
  returned (Collect jsonUnmarshal env)
    = returned (recordDrbdSplitBrainMetric (splitBrainDir env)).
Proof.
  unfold Collect. rewrite bind_returned.
  destruct (returned (recordDrbdSplitBrainMetric (splitBrainDir env)))
    as [[]|]; [|reflexivity].
  cbn [mbind option_bind].
  destruct (drbdsetupStatus env) as [err|raw]; [reflexivity|].
  destruct (parseDrbdStatus jsonUnmarshal raw) as [err|devs]; [reflexivity|].
  apply eachOf_always_returns, recordResource_returns.
Qed.

Lemma samplesOf_flat_map_length {A : Type} (name : string)
    (f : A → list Metric) (l : list A) :
  length (samplesOf name (flat_map f l))
    = sum_list_with (λ x, length (samplesOf name (f x))) l.
Proof.
  induction l as [|x l IH]; [reflexivity|].
  cbn [flat_map sum_list_with]. by rewrite samplesOf_app, length_app, IH.
Qed.

Lemma flat_map_length_sum {A : Type} (f : A → list Metric) (l : list A) :
  length (flat_map f l) = sum_list_with (λ x, length (f x)) l.
Proof.
  induction l as [|x l IH]; [reflexivity|].
  cbn [flat_map sum_list_with]. by rewrite length_app, IH.
Qed.

Lemma sum_list_with_const {A : Type} (n : nat) (l : list A) :
  sum_list_with (λ _, n) l = (n * length l)%nat.
Proof. induction l as [|x l IH]; cbn [sum_list_with length]; lia. Qed.

Lemma sum_list_with_zero {A : Type} (f : A → nat) (l : list A) :
  (∀ x, f x = O) → sum_list_with f l = O.
Proof.
  intros Hf. induction l as [|x l IH]; [reflexivity|].
  cbn [sum_list_with]. by rewrite Hf, IH.
Qed.

Lemma sum_list_with_scale {A : Type} (n : nat) (f : A → nat) (l : list A) :
  sum_list_with (λ x, n * f x)%nat l = (n * sum_list_with f l)%nat.
Proof. induction l as [|x l IH]; cbn [sum_list_with]; lia. Qed.

(** Each device gets one sample of every device metric, and none of a
    connection metric; eight samples in all. *)
Lemma recordDevice_counts (resource : drbdStatus) (device : Device)
    (name : string) :
  (name ∈ deviceMetrics →
   length (samplesOf name (emitted (recordDevice resource device))) = 1%nat) ∧
  (name ∈ connectionMetrics →
   length (samplesOf name (emitted (recordDevice resource device))) = O) ∧
  length (emitted (recordDevice resource device)) = 8%nat.
Proof.
  unfold recordDevice, deviceMetrics, connectionMetrics.
  split_and!; [intros Hname|intros Hname|by destruct (Quorum device)];
    repeat (apply elem_of_cons in Hname as [->|Hname];
            [by destruct (Quorum device)|]);
    by apply elem_of_nil in Hname.
Qed.

(** Each peer device gets one sample of every connection metric, and none
    of a device metric; six samples in all. *)
Lemma recordPeerDevice_counts (resource : drbdStatus) (conn : Connection)
    (peerDev : PeerDevice) (name : string) :
  (name ∈ connectionMetrics →
   length (samplesOf name (emitted (recordPeerDevice resource conn peerDev)))
     = 1%nat) ∧
  (name ∈ deviceMetrics →
   length (samplesOf name (emitted (recordPeerDevice resource conn peerDev)))
     = O) ∧
  length (emitted (recordPeerDevice resource conn peerDev)) = 6%nat.
Proof.
  unfold recordPeerDevice, deviceMetrics, connectionMetrics.
  split_and!; [intros Hname|intros Hname|reflexivity];
    repeat (apply elem_of_cons in Hname as [->|Hname]; [reflexivity|]);
    by apply elem_of_nil in Hname.
Qed.

Lemma sum_list_with_ext {A : Type} (f g : A → nat) (l : list A) :
  (∀ x, f x = g x) → sum_list_with f l = sum_list_with g l.
Proof.
  intros Hfg. induction l as [|x l IH]; [reflexivity|].
  cbn [sum_list_with]. by rewrite Hfg, IH.
Qed.

Lemma resources_device_counts (drbdDev : list drbdStatus) (name : string) :
  name ∈ deviceMetrics →
  length (samplesOf name
            (flat_map (λ resource, emitted (recordResource resource)) drbdDev))
    = totalDevices drbdDev.
Proof.
  intros Hname. rewrite samplesOf_flat_map_length. unfold totalDevices.
  apply sum_list_with_ext. intros resource.
  rewrite recordResource_emitted, samplesOf_app, length_app,
    !samplesOf_flat_map_length.
  rewrite (sum_list_with_ext _ (λ _, 1%nat))
    by (intros d; by apply recordDevice_counts).
  rewrite sum_list_with_const.
  rewrite (sum_list_with_zero _ (Connections resource)); [lia|].
  intros conn. rewrite samplesOf_flat_map_length.
  apply sum_list_with_zero. intros pd. by apply recordPeerDevice_counts.
Qed.

Lemma resources_connection_counts (drbdDev : list drbdStatus) (name : string) :
  name ∈ connectionMetrics →
  length (samplesOf name
            (flat_map (λ resource, emitted (recordResource resource)) drbdDev))
    = totalPeerDevices drbdDev.
Proof.
  intros Hname. rewrite samplesOf_flat_map_length. unfold totalPeerDevices.
  apply sum_list_with_ext. intros resource.
  rewrite recordResource_emitted, samplesOf_app, length_app,
    !samplesOf_flat_map_length.
  rewrite (sum_list_with_zero _ (Devices resource))
    by (intros d; by apply recordDevice_counts).
  cbn [Nat.add]. apply sum_list_with_ext. intros conn.
  rewrite samplesOf_flat_map_length.
  rewrite (sum_list_with_ext _ (λ _, 1%nat))
    by (intros pd; by apply recordPeerDevice_counts).
  rewrite sum_list_with_const. lia.
Qed.

Lemma resources_total (drbdDev : list drbdStatus) :
  length (flat_map (λ resource, emitted (recordResource resource)) drbdDev)
    = (8 * totalDevices drbdDev + 6 * totalPeerDevices drbdDev)%nat.
Proof.
  unfold totalDevices, totalPeerDevices.
  induction drbdDev as [|resource devs IH]; [reflexivity|].
  cbn [flat_map sum_list_with]. rewrite length_app, IH.
  rewrite recordResource_emitted, length_app, !flat_map_length_sum.
  rewrite (sum_list_with_ext _ (λ _, 8%nat))
    by (intros d; apply (recordDevice_counts resource d "")).
  rewrite sum_list_with_const.
  rewrite (sum_list_with_ext _ (λ conn, 6 * length (PeerDevices conn))%nat).
  - rewrite sum_list_with_scale. lia.
  - intros conn. rewrite flat_map_length_sum.
    rewrite (sum_list_with_ext _ (λ _, 6%nat))
      by (intros pd; apply (recordPeerDevice_counts resource conn pd "")).
    by rewrite sum_list_with_const.
Qed.

Lemma recordResource_other_names (resource : drbdStatus) :
  Forall (λ m, metricName m ≠ "split_brain") (emitted (recordResource resource)).
Proof.
  rewrite recordResource_emitted. apply Forall_app. split.
  - apply Forall_flat_map, Forall_forall. intros device _.
    unfold recordDevice. destruct (Quorum device); by repeat constructor.
  - apply Forall_flat_map, Forall_forall. intros conn _.
    apply Forall_flat_map, Forall_forall. intros peerDev _.
    by repeat constructor.
Qed.

(** The samples of a pass whose sources answer and whose split-brain
    projection returns. *)
Lemma drbd_Collect_emitted (jsonUnmarshal : string → error + list drbdStatus)
    (env : Env) (raw : string) (drbdDev : list drbdStatus) :
  drbdsetupStatus env = inr raw → jsonUnmarshal raw = inr drbdDev →
  returned (recordDrbdSplitBrainMetric (splitBrainDir env)) = Some tt →
  emitted (Collect jsonUnmarshal env)
    = emitted (recordDrbdSplitBrainMetric (splitBrainDir env))
      ++ flat_map (λ resource, emitted (recordResource resource)) drbdDev.
Proof.
  intros Hraw Hdev Hsb. unfold Collect, parseDrbdStatus.
  rewrite bind_emitted, Hsb, Hraw, Hdev. f_equal.
  apply eachOf_emitted, recordResource_returns.
Qed.

(** X12. In a pass whose [drbdsetup] output decodes and whose split-brain
    projection returns, every device of the snapshot gets exactly one sample
    of each of the eight device metrics and every peer device exactly one of
    each of the six connection metrics, resources without connections and
    connections without peer devices included; the [split_brain] samples
    are those of the projection. *)
Theorem drbd_sample_counts (jsonUnmarshal : string → error + list drbdStatus)
    (env : Env) (raw : string) (drbdDev : list drbdStatus) :
  drbdsetupStatus env = inr raw → jsonUnmarshal raw = inr drbdDev →
  returned (recordDrbdSplitBrainMetric (splitBrainDir env)) = Some tt →
  (∀ name, name ∈ deviceMetrics →
     length (samplesOf name (emitted (Collect jsonUnmarshal env)))
       = totalDevices drbdDev) ∧
  (∀ name, name ∈ connectionMetrics →
     length (samplesOf name (emitted (Collect jsonUnmarshal env)))
       = totalPeerDevices drbdDev) ∧
  samplesOf "split_brain" (emitted (Collect jsonUnmarshal env))
    = emitted (recordDrbdSplitBrainMetric (splitBrainDir env)) ∧
  length (emitted (Collect jsonUnmarshal env))
    = (length (emitted (recordDrbdSplitBrainMetric (splitBrainDir env)))
       + 8 * totalDevices drbdDev + 6 * totalPeerDevices drbdDev)%nat.
Proof.
  intros Hraw Hdev Hsb.
  rewrite (drbd_Collect_emitted _ _ _ _ Hraw Hdev Hsb).
  pose proof (recordDrbdSplitBrainMetric_named (splitBrainDir env)) as Hnamed.
  split_and!.
  - intros name Hname. rewrite samplesOf_app, length_app.
    rewrite (samplesOf_other name "split_brain" _); [|intros <-|exact Hnamed].
    + by apply resources_device_counts.
    + unfold deviceMetrics in Hname.
      repeat (apply elem_of_cons in Hname as [Hname|Hname];
              [discriminate Hname|]).
      by apply elem_of_nil in Hname.
  - intros name Hname. rewrite samplesOf_app, length_app.
    rewrite (samplesOf_other name "split_brain" _); [|intros <-|exact Hnamed].
    + by apply resources_connection_counts.
    + unfold connectionMetrics in Hname.
      repeat (apply elem_of_cons in Hname as [Hname|Hname];
              [discriminate Hname|]).
      by apply elem_of_nil in Hname.
  - rewrite samplesOf_app, (samplesOf_same _ _ Hnamed).
    rewrite (samplesOf_none "split_brain"); [apply app_nil_r|].
    apply Forall_flat_map, Forall_forall. intros resource _.
    apply recordResource_other_names.
  - rewrite length_app, resources_total. lia.
Qed.

Lemma drbd_sample_counts_witness :
  drbdsetupStatus Examples.healthy = inr "[{}]" ∧
  length (samplesOf "quorum"
            (emitted (Collect Examples.decoder Examples.healthy))) = 1%nat ∧
  length (samplesOf "connections_sync"
            (emitted (Collect Examples.decoder Examples.healthy))) = 1%nat.
Proof.
  destruct (drbd_sample_counts Examples.decoder Examples.healthy "[{}]" _
              eq_refl eq_refl eq_refl) as (Hdev & Hconn & _).
  split_and!; [reflexivity| |].
  - apply (Hdev "quorum"). unfold deviceMetrics. rewrite !elem_of_cons. tauto.
  - apply (Hconn "connections_sync"). unfold connectionMetrics.
    rewrite !elem_of_cons. tauto.
Defined.

Lemma samplesOf_flat_map {A : Type} (name : string) (f : A → list Metric)
    (l : list A) :
  samplesOf name (flat_map f l) = flat_map (λ x, samplesOf name (f x)) l.
Proof.
  induction l as [|x l IH]; [reflexivity|].
  cbn [flat_map]. by rewrite samplesOf_app, IH.
Qed.

Lemma flat_map_nil {A B : Type} (f : A → list B) (l : list A) :
  (∀ x, f x = []) → flat_map f l = [].
Proof.
  intros Hf. induction l as [|x l IH]; [reflexivity|].
  cbn [flat_map]. by rewrite Hf, IH.
Qed.

Lemma recordDevice_gauge (resource : drbdStatus) (device : Device)
    (name : string) (value : Device → Float64.float64) :
  (name, value) ∈ deviceGauges →
  samplesOf name (emitted (recordDevice resource device))
    = [deviceGauge name value (resource, device)] ∧
  samplesOf name
    (flat_map (λ conn,
       flat_map (λ peerDev, emitted (recordPeerDevice resource conn peerDev))
         (PeerDevices conn)) (Connections resource)) = [].
Proof.
  unfold deviceGauges. intros Hin.
  repeat (apply elem_of_cons in Hin as [[= -> ->]|Hin];
          [split;
           [unfold recordDevice, deviceGauge; cbn [fst snd];
            by destruct (Quorum device)
           |rewrite samplesOf_flat_map; apply flat_map_nil; intros conn;
            rewrite samplesOf_flat_map; by apply flat_map_nil]|]).
  by apply elem_of_nil in Hin.
Qed.

Lemma recordPeerDevice_gauge (resource : drbdStatus) (conn : Connection)
    (peerDev : PeerDevice) (name : string)
    (value : PeerDevice → Float64.float64) :
  (name, value) ∈ connectionGauges →
  samplesOf name (emitted (recordPeerDevice resource conn peerDev))
    = [connectionGauge name value (resource, conn, peerDev)] ∧
  (∀ device, samplesOf name (emitted (recordDevice resource device)) = []).
Proof.
  unfold connectionGauges. intros Hin.
  repeat (apply elem_of_cons in Hin as [[= -> ->]|Hin];
          [split; [reflexivity|intros device; unfold recordDevice;
                               by destruct (Quorum device)]|]).
  by apply elem_of_nil in Hin.
Qed.

Lemma not_split_brain_device (name : string)
    (value : Device → Float64.float64) :
  (name, value) ∈ deviceGauges → "split_brain" ≠ name.
Proof.
  unfold deviceGauges. intros Hin.
  repeat (apply elem_of_cons in Hin as [[= -> ->]|Hin]; [discriminate|]).
  by apply elem_of_nil in Hin.
Qed.

Lemma not_split_brain_connection (name : string)
    (value : PeerDevice → Float64.float64) :
  (name, value) ∈ connectionGauges → "split_brain" ≠ name.
Proof.
  unfold connectionGauges. intros Hin.
  repeat (apply elem_of_cons in Hin as [[= -> ->]|Hin]; [discriminate|]).
  by apply elem_of_nil in Hin.
Qed.

Lemma map_of_flat_map {A B C : Type} (f : B → C) (g : A → list B)
    (l : list A) :
  List.map f (flat_map g l) = flat_map (λ x, List.map f (g x)) l.
Proof.
  induction l as [|x l IH]; [reflexivity|].
  cbn [flat_map]. by rewrite List.map_app, IH.
Qed.

Lemma flat_map_map_singleton {A B : Type} (f : A → B) (l : list A) :
  flat_map (λ x, [f x]) l = List.map f l.
Proof. induction l as [|x l IH]; [reflexivity|]. cbn. by rewrite IH. Qed.

(** X13. In a pass whose [drbdsetup] output decodes and whose split-brain
    projection returns, the samples of each device gauge are, in the order
    of the snapshot, one per device: labelled with the resource name and
    the volume in decimal, and worth the device's counter as it is, or 1
    and 0 for the quorum flag; likewise the samples of each connection
    gauge are one per peer device, labelled with resource, peer node and
    volume. *)
Theorem drbd_gauges_pass_through
    (jsonUnmarshal : string → error + list drbdStatus) (env : Env)
    (raw : string) (drbdDev : list drbdStatus) :
  drbdsetupStatus env = inr raw → jsonUnmarshal raw = inr drbdDev →
  returned (recordDrbdSplitBrainMetric (splitBrainDir env)) = Some tt →
  (∀ name value, (name, value) ∈ deviceGauges →
     samplesOf name (emitted (Collect jsonUnmarshal env))
       = List.map (deviceGauge name value) (allDevices drbdDev)) ∧
  (∀ name value, (name, value) ∈ connectionGauges →
     samplesOf name (emitted (Collect jsonUnmarshal env))
       = List.map (connectionGauge name value) (allPeerDevices drbdDev)).
Proof.
  intros Hraw Hdev Hsb.
  rewrite (drbd_Collect_emitted _ _ _ _ Hraw Hdev Hsb).
  pose proof (recordDrbdSplitBrainMetric_named (splitBrainDir env)) as Hnamed.
  split.
  - intros name value Hin. rewrite samplesOf_app.
    rewrite (samplesOf_other name "split_brain" _
               (not_split_brain_device _ _ Hin) Hnamed).
    cbn [app]. rewrite samplesOf_flat_map. unfold allDevices.
    rewrite map_of_flat_map.
    apply flat_map_ext. intros resource.
    rewrite recordResource_emitted, samplesOf_app, samplesOf_flat_map.
    rewrite (proj2 (recordDevice_gauge resource
                      (mkDevice 0 0 0 0 0 0 0 false EmptyString) _ _ Hin)).
    rewrite app_nil_r, List.map_map, <- flat_map_map_singleton.
    apply flat_map_ext. intros device.
    exact (proj1 (recordDevice_gauge resource device _ _ Hin)).
  - intros name value Hin. rewrite samplesOf_app.
    rewrite (samplesOf_other name "split_brain" _
               (not_split_brain_connection _ _ Hin) Hnamed).
    cbn [app]. rewrite samplesOf_flat_map. unfold allPeerDevices.
    rewrite map_of_flat_map.
    apply flat_map_ext. intros resource.
    rewrite recordResource_emitted, samplesOf_app, !samplesOf_flat_map.
    rewrite (flat_map_nil _ (Devices resource)); [cbn [app]|].
    + rewrite map_of_flat_map. apply flat_map_ext. intros conn.
      rewrite samplesOf_flat_map, List.map_map, <- flat_map_map_singleton.
      apply flat_map_ext. intros peerDev.
      exact (proj1 (recordPeerDevice_gauge resource conn peerDev _ _ Hin)).
    + intros device.
      exact (proj2 (recordPeerDevice_gauge resource
                      (mkConnection 0 EmptyString [])
                      (mkPeerDevice 0 0 0 0 0 EmptyString (S754_zero false))
                      _ _ Hin) device).
Qed.

Lemma drbd_gauges_pass_through_witness :
  drbdsetupStatus Examples.healthy = inr "[{}]" ∧
  samplesOf "written" (emitted (Collect Examples.decoder Examples.healthy))
    = [MakeGaugeMetric "written" (Float64.ofInt 1024) ["1-single-0"; "0"]].
Proof.
  destruct (drbd_gauges_pass_through Examples.decoder Examples.healthy "[{}]" _
              eq_refl eq_refl eq_refl) as (Hdev & _).
  split; [reflexivity|].
  apply (Hdev "written" (λ device, Float64.ofInt (Written device))).
  apply list_elem_of_lookup. by exists 0%nat.
Defined.

End DrbdPass.
